(** * The CreateSchedule handler of the API gateway

    A shallow embedding of [src/handler/default_schedule.go]: the handler
    [(h *_default) CreateSchedule(c *gin.Context)] as a function in a small
    state-and-trace monad.  The trace records, in program order, every call
    the handler makes across its boundary (gin, logrus, the tracer, the
    consul agent, the breaker package, the timer and the schedule service).
    A second model, [Module Registry], replays lines 93-100 (the locked
    insert into [h.breakers] and the read that follows it) for several
    request goroutines at once. *)

From Stdlib Require Import ZArith String List Bool Lia DecimalString.
From stdpp Require Import base gmap strings list.

Local Open Scope Z_scope.

(** ** Constants of net/http used by the handler *)

Module http.
Definition StatusCreated : Z := 201.
Definition StatusBadRequest : Z := 400.
Definition StatusUnauthorized : Z := 401.
Definition StatusRequestTimeout : Z := 408.
Definition StatusInternalServerError : Z := 500.
Definition StatusServiceUnavailable : Z := 503.
End http.

(** ** Values *)

(** The dynamic values the handler stores in [gin.H], [logrus.Fields], span
    tags and span log fields.  [JOpaque] stands for the object-valued fields
    ([log.Object], [log.Error]) whose rendering belongs to the tracer. *)
Inductive jval : Type :=
  | JInt (z : Z)
  | JStr (s : string)
  | JOpaque.

(** [gin.H] and [logrus.Fields] are both [map[string]interface{}]: they
    are [gmap string jval] throughout. *)

(** Go's [error] values that reach the handler's [err] variable after
    [Breaker.Run]: the breaker package's sentinel, go-micro's
    [*errors.Error] (fields [Code] and [Detail]), or any other error, kept
    by the text its [Error()] method returns. *)
Inductive error : Type :=
  | ErrBreakerOpen
  | MicroError (Code : Z) (Detail : string)
  | OtherError (text : string).

(** Errors of [consulAgent.GetNextServiceNode]: the sentinel
    [agenterrors.AvailableNodeNotExist] or any other error. *)
Inductive agent_error : Type :=
  | AvailableNodeNotExist
  | AgentError (text : string).

(** [registry.Node] of go-micro as the handler reads it. *)
Record Node : Type := {
  Id : string;
  Address : string;
  Metadata : gmap string string
}.

(** Indexing a Go [map[string]string]: the zero value for a missing key. *)
Definition index (m : gmap string string) (k : string) : string :=
  default "" (m !! k).

(** [scheduleproto.DefaultScheduleResponse]: the backend's declared status,
    code and message, and whatever else the body carries.  The handler
    converts [Status] with [int(...)] for the status line; the generated
    field is a 32-bit integer and [int] has 64 bits on the gateway's
    targets, so the conversion changes nothing. *)
Record DefaultScheduleResponse : Type := {
  Status : Z;
  Code : Z;
  Msg : string;
  ScheduleUuid : string
}.

(** [jwtutil.UUIDClaims]. *)
Record UUIDClaims : Type := { UUID : string }.

(** [*logrus.Entry]: the fields accumulated so far. *)
Record Entry : Type := { Data : gmap string jval }.

(** What [c.Get] can find under a key of the gin context. *)
Inductive ctx_value : Type :=
  | VEntry (e : Entry)
  | VOther (descr : string).

(** The parts of [*gin.Context] the handler reads. *)
Record Context : Type := {
  Method : string;
  FullPath : string;
  Header : gmap string string;
  Keys : gmap string ctx_value
}.

Definition GetHeader (c : Context) (k : string) : string := index (Header c) k.

(** [fmt.Sprintf]'s [%d] verb. *)
Definition fmt_d (z : Z) : string := NilZero.string_of_int (Z.to_int z).

(** ** The circuit breaker *)

(** Modelled from the spec: the package
    [github.com/eapache/go-resiliency/breaker] is imported by the handler and
    its source is not under src/.  States and transitions follow section 4.2:
    Closed to Open when consecutive failures reach [errorThreshold]; Open to
    HalfOpen once [timeout] (the cool-down) has elapsed since [openedAt];
    HalfOpen to Closed when consecutive successes reach [successThreshold];
    HalfOpen to Open on any failure, [openedAt] reset.  Time is the clock of
    the world, in nanoseconds as [time.Duration] counts them. *)
Module breaker.

Inductive state : Type := closed | open | halfOpen.

Record Breaker : Type := {
  errorThreshold : Z;
  successThreshold : Z;
  timeout : Z;
  st : state;
  errors : Z;
  successes : Z;
  openedAt : Z
}.

Definition New (errorThreshold successThreshold timeout : Z) : Breaker :=
  {| errorThreshold := errorThreshold; successThreshold := successThreshold;
     timeout := timeout; st := closed; errors := 0; successes := 0;
     openedAt := 0 |}.

Definition with_state (b : Breaker) (s : state) (at_ : Z) : Breaker :=
  {| errorThreshold := errorThreshold b; successThreshold := successThreshold b;
     timeout := timeout b; st := s; errors := 0; successes := 0;
     openedAt := at_ |}.

Definition with_counts (b : Breaker) (e s : Z) : Breaker :=
  {| errorThreshold := errorThreshold b; successThreshold := successThreshold b;
     timeout := timeout b; st := st b; errors := e; successes := s;
     openedAt := openedAt b |}.

(** The breaker as a call at time [now] finds it: an Open breaker whose
    cool-down has elapsed is HalfOpen. *)
Definition current (now : Z) (b : Breaker) : Breaker :=
  match st b with
  | open => if openedAt b + timeout b <=? now
            then with_state b halfOpen (openedAt b) else b
  | _ => b
  end.

(** [Run] rejects exactly in the Open state. *)
Definition rejects (now : Z) (b : Breaker) : bool :=
  match st (current now b) with open => true | _ => false end.

(** Book-keeping after the protected function returned. *)
Definition record (now : Z) (failed : bool) (b : Breaker) : Breaker :=
  match st b, failed with
  | closed, false => with_counts b 0 0
  | closed, true =>
      if errorThreshold b <=? errors b + 1
      then with_state b open now
      else with_counts b (errors b + 1) 0
  | halfOpen, false =>
      if successThreshold b <=? successes b + 1
      then with_state b closed (openedAt b)
      else with_counts b 0 (successes b + 1)
  | halfOpen, true => with_state b open now
  | open, _ => b
  end.

End breaker.

Abbreviation Breaker := breaker.Breaker.

(** ** Timers *)

(** The one closure the handler hands to [time.AfterFunc] (line 118):
    [func() { _ = h.consulAgent.PassTTLHealth(checkID, note) }]. *)
Inductive callback : Type :=
  | CallPassTTLHealth (checkID note : string).

(** A pending timer: the instant it becomes due and what it runs. *)
Record Timer : Type := { due : Z; run : callback }.

(** ** How a call ends *)

(** A Go function returns, or panics with a runtime error. *)
Inductive outcome (A : Type) : Type :=
  | Returned (a : A)
  | Panicked (why : string).
Arguments Returned {A} a.
Arguments Panicked {A} why.

(** ** Substrings *)

(** [containsb sub s]: [sub] occurs in [s] (Go's [strings.Contains]). *)
Fixpoint containsb (sub s : string) : bool :=
  String.prefix sub s ||
  match s with
  | EmptyString => false
  | String _ s' => containsb sub s'
  end.

(** ** Declarations the handler imports from packages outside src/ *)

(** The handler is compiled against these; their definitions live in
    [gateway/entity], [gateway/proto/golang/schedule],
    [gateway/utils/code/golang], [gateway/utils/topic/golang], the breaker
    package and Go's [time] and [encoding/json].  They are parameters of the
    whole development. *)
Class Imports : Type := {
  (** [entity.CreateScheduleRequest], the validated request body *)
  CreateScheduleRequest : Type;
  (** [scheduleproto.CreateScheduleRequest], the RPC request *)
  RpcRequest : Type;
  (** [receivedReq.GenerateGRPCRequest()] *)
  GenerateGRPCRequest : CreateScheduleRequest -> RpcRequest;
  (** the assignment [rpcReq.Uuid = ...] *)
  set_Uuid : RpcRequest -> string -> RpcRequest;
  (** [code.AvailableServiceNotExist] and [code.CircuitBreakerOpen] *)
  AvailableServiceNotExist : Z;
  CircuitBreakerOpen : Z;
  (** [topic.ScheduleServiceName] *)
  ScheduleServiceName : string;
  (** [breaker.ErrBreakerOpen.Error()] *)
  ErrBreakerOpen_Error : string;
  (** [time.Duration.String] *)
  Duration_String : Z -> string;
  (** [json.Marshal] at the two types the handler marshals *)
  json_Marshal_request : CreateScheduleRequest -> string;
  json_Marshal_H : gmap string jval -> string
}.

Section Handler.

Context {imp : Imports}.

(** ** The trace *)

Inductive level : Type := InfoLevel | ErrorLevel.

(** One call across the handler's boundary.  Spans are named by their
    operation name.  The health calls carry the error the consul agent
    returned ([None] for nil). *)
Inductive event : Type :=
  | EStartSpan (name : string) (parent : option string)
  | ESetTag (span key : string) (v : jval)
  | ELogFields (span : string) (fields : list (string * jval))
  | EFinish (span : string)
  | EJSON (status : Z) (body : gmap string jval)
  | ELog (lvl : level) (fields : gmap string jval)
  | EGetNextServiceNode (service : string)
  | EBreakerNew (id : string)
  | EBreakerRun (id : string) (passed : bool)
  | EBackendCall (address reqID : string) (req : RpcRequest)
  | EFailTTLHealth (checkID note : string) (result : option string)
  | EPassTTLHealth (checkID note : string) (result : option string)
  | EAfterFunc (d : Z) (f : callback).

(** ** The handler value and the world it runs in *)

(** [h.BreakerCfg]; [Timeout] is a [time.Duration], in nanoseconds. *)
Record BreakerConfig : Type := {
  ErrorThreshold : Z;
  SuccessThreshold : Z;
  Timeout : Z
}.

(** The consul agent interface as the handler calls it.  The two health
    calls return their error, [None] for nil. *)
Record ConsulAgent : Type := {
  GetNextServiceNode : string -> Node + agent_error;
  FailTTLHealth : string -> string -> option string;
  PassTTLHealth : string -> string -> option string
}.

(** The fields of [_default] the handler uses, except [breakers], which is
    mutable and lives in the world.  [checkIfAuthenticated] and
    [checkIfValidRequest] are methods of [_default] defined outside src/;
    the second one also fills [receivedReq].  [scheduleService] takes the
    request id carried in the call's metadata, the RPC request and the
    address given by [client.WithAddress]. *)
Record _default : Type := {
  consulAgent : ConsulAgent;
  scheduleService : string -> RpcRequest -> string -> DefaultScheduleResponse + error;
  BreakerCfg : BreakerConfig;
  checkIfAuthenticated : Context -> bool * UUIDClaims * Z * string;
  checkIfValidRequest : Context -> CreateScheduleRequest * (bool * Z * string)
}.

(** The mutable state: the clock, [h.breakers] and the pending timers. *)
Record World : Type := {
  now : Z;
  breakers : gmap string Breaker;
  timers : list Timer
}.

(** ** The monad: state, trace, and Go panics *)

Definition M (A : Type) : Type := World -> outcome A * World * list event.

Definition ret {A} (a : A) : M A := fun w => (Returned a, w, []).

Definition bind {A B} (m : M A) (k : A -> M B) : M B :=
  fun w =>
    match m w with
    | (Returned a, w1, t1) =>
        match k a w1 with (r, w2, t2) => (r, w2, t1 ++ t2) end
    | (Panicked why, w1, t1) => (Panicked why, w1, t1)
    end.

Definition emit (e : event) : M unit := fun w => (Returned tt, w, [e]).

Definition panic {A} (why : string) : M A := fun w => (Panicked why, w, []).

Definition get : M World := fun w => (Returned w, w, []).

Notation "'do' x <- m ; k" := (bind m (fun x => k))
  (at level 10, x name, m at level 100, k at level 200, only parsing).
Notation "m >> k" := (bind m (fun _ => k))
  (at level 100, k at level 200, right associativity, only parsing).

(** The events, final world and outcome of running [m] from [w]. *)
Definition events_of {A} (m : M A) (w : World) : list event := snd (m w).
Definition world_of {A} (m : M A) (w : World) : World := snd (fst (m w)).
Definition outcome_of {A} (m : M A) (w : World) : outcome A := fst (fst (m w)).

(** ** Collaborator calls *)

Definition StartSpan (name : string) (parent : option string) : M unit :=
  emit (EStartSpan name parent).
Definition SetTag (span key : string) (v : jval) : M unit :=
  emit (ESetTag span key v).
Definition LogFields (span : string) (fs : list (string * jval)) : M unit :=
  emit (ELogFields span fs).
Definition Finish (span : string) : M unit := emit (EFinish span).

(** [c.JSON(status, body)]: the answer, as the handler hands it to gin. *)
Definition JSON (status : Z) (body : gmap string jval) : M unit :=
  emit (EJSON status body).

(** [entry.WithFields(fields)]: logrus copies [entry.Data] and then the new
    fields over it, so it reads through the receiver; on a nil receiver the
    Go runtime panics. *)
Definition WithFields (entry : option Entry) (fields : gmap string jval) : M Entry :=
  match entry with
  | None => panic "invalid memory address or nil pointer dereference"
  | Some e => ret {| Data := fields ∪ Data e |}
  end.

Definition Entry_Error (e : Entry) : M unit := emit (ELog ErrorLevel (Data e)).
Definition Entry_Info (e : Entry) : M unit := emit (ELog InfoLevel (Data e)).

(** [h.consulAgent.FailTTLHealth(checkID, note)], returning its error. *)
Definition callFailTTLHealth (h : _default) (checkID note : string) : M (option string) :=
  let r := FailTTLHealth (consulAgent h) checkID note in
  emit (EFailTTLHealth checkID note r) >> ret r.

Definition callPassTTLHealth (h : _default) (checkID note : string) : M (option string) :=
  let r := PassTTLHealth (consulAgent h) checkID note in
  emit (EPassTTLHealth checkID note r) >> ret r.

(** [time.AfterFunc(d, f)]: registers a timer due [d] after the present
    instant and returns at once. *)
Definition AfterFunc (d : Z) (f : callback) : M unit :=
  fun w =>
    (Returned tt,
     {| now := now w; breakers := breakers w;
        timers := timers w ++ [{| due := now w + d; run := f |}] |},
     [EAfterFunc d f]).

Definition set_breakers (bs : gmap string Breaker) : M unit :=
  fun w => (Returned tt, {| now := now w; breakers := bs; timers := timers w |}, []).

(** ** [Breaker.Run] *)

(** Modelled from the spec: [Run] is a method of the imported breaker
    package, whose source is not under src/; it follows section 4.2.  In the
    Open state [work] is not called and the breaker-open sentinel is
    returned; otherwise [work] is called once, its result is recorded and
    passed on unchanged.
    The call is [h.breakers[id].Run(work)] (line 100): the map read yields
    nil for a missing key, and [Run] on a nil breaker panics.  The first
    component of the result is the variable [rpcResp] that the closure
    assigns, nil when the closure did not run. *)
Definition Run (id : string)
    (work : M (option DefaultScheduleResponse * option error))
    : M (option DefaultScheduleResponse * option error) :=
  do w <- get;
  match breakers w !! id with
  | None => panic "invalid memory address or nil pointer dereference"
  | Some b =>
      let b1 := breaker.current (now w) b in
      set_breakers (<[id := b1]> (breakers w)) >>
      match breaker.st b1 with
      | breaker.open =>
          emit (EBreakerRun id false) >> ret (None, Some ErrBreakerOpen)
      | _ =>
          emit (EBreakerRun id true) >>
          do r <- work;
          do w' <- get;
          set_breakers
            (<[id := breaker.record (now w') (bool_decide (is_Some (snd r))) b1]>
               (breakers w')) >>
          ret r
      end
  end.

(** ** The handler *)

(** The literal [gin.H{"status": status, "code": _code, "message": msg}]. *)
Definition gin_H (status code : Z) (msg : string) : gmap string jval :=
  {[ "status" := JInt status; "code" := JInt code; "message" := JStr msg ]}.

(** The literal [logrus.Fields{"status": ..., "code": ..., "message": ...,
    "request": string(reqBytes)}]. *)
Definition with_request (status code : Z) (msg reqBytes : string) : gmap string jval :=
  {[ "status" := JInt status; "code" := JInt code; "message" := JStr msg;
     "request" := JStr reqBytes ]}.

Definition Entry_log (lvl : level) (e : Entry) : M unit :=
  match lvl with
  | ErrorLevel => Entry_Error e
  | InfoLevel => Entry_Info e
  end.

(** The three statements that close every branch: [topSpan.LogFields] with
    status, code and message, then the two tags and [Finish]. *)
Definition close_span (topSpan : string) (status code : Z) (msg : string) : M unit :=
  LogFields topSpan
    [("status", JInt status); ("code", JInt code); ("message", JStr msg)] >>
  SetTag topSpan "status" (JInt status) >>
  SetTag topSpan "code" (JInt code) >>
  Finish topSpan.

(** The block every branch ends with:
    [c.JSON(status, body)], [entry.WithFields(fields).Error()] (or [.Info()]),
    and the span statements. *)
Definition reply (entry : option Entry) (topSpan : string) (lvl : level)
    (status code : Z) (msg : string) (body fields : gmap string jval) : M unit :=
  JSON status body >>
  (do e <- WithFields entry fields; Entry_log lvl e) >>
  close_span topSpan status code msg.

(** The closure given to [Run] (lines 100-112). *)
Definition invoke (h : _default) (topSpan reqID : string)
    (receivedReq : CreateScheduleRequest) (uuidClaims : UUIDClaims)
    (selectedNode : Node)
    : M (option DefaultScheduleResponse * option error) :=
  let scheduleSrvSpan := "CreateSchedule" in
  StartSpan scheduleSrvSpan (Some topSpan) >>
  let rpcReq := set_Uuid (GenerateGRPCRequest receivedReq) (UUID uuidClaims) in
  emit (EBackendCall (Address selectedNode) reqID rpcReq) >>
  let '(rpcResp, rpcErr) :=
    match scheduleService h reqID rpcReq (Address selectedNode) with
    | inl resp => (Some resp, None)
    | inr e => (None, Some e)
    end in
  SetTag scheduleSrvSpan "X-Request-Id" (JStr reqID) >>
  LogFields scheduleSrvSpan
    [("request", JOpaque); ("response", JOpaque); ("error", JOpaque)] >>
  Finish scheduleSrvSpan >>
  ret (rpcResp, rpcErr).

(** Lines 114-177: what the handler answers to the result of [Run]; [r] is
    the pair of [rpcResp] and [err]. *)
Definition respond (h : _default) (entry : option Entry) (topSpan : string)
    (reqBytes : string) (selectedNode : Node)
    (r : option DefaultScheduleResponse * option error) : M unit :=
  let '(rpcResp, err) := r in
  match err with
  | Some ErrBreakerOpen =>
      let msg := "circuit breaker is open (service id: " +:+ Id selectedNode
                 +:+ ", time out: " +:+ Duration_String (Timeout (BreakerCfg h))
                 +:+ ")" in
      let status := http.StatusServiceUnavailable in
      let _code := CircuitBreakerOpen in
      callFailTTLHealth h (index (Metadata selectedNode) "CheckID") ErrBreakerOpen_Error >>
      AfterFunc (Timeout (BreakerCfg h))
        (CallPassTTLHealth (index (Metadata selectedNode) "CheckID")
           "close circuit breaker") >>
      reply entry topSpan ErrorLevel status _code msg
        (gin_H status _code msg) (with_request status _code msg reqBytes)
  | Some (MicroError Code Detail) =>
      let '(msg, status, _code) :=
        if Code =? http.StatusRequestTimeout
        then ("request time out for CreateSchedule service, detail: " +:+ Detail,
              http.StatusRequestTimeout, 0)
        else ("CreateSchedule returns unexpected micro error, code: " +:+ fmt_d Code
              +:+ ", detail: " +:+ Detail,
              http.StatusInternalServerError, 0) in
      reply entry topSpan ErrorLevel status _code msg
        (gin_H status _code msg) (with_request status _code msg reqBytes)
  | Some (OtherError text) =>
      let status := http.StatusInternalServerError in
      let _code := 0 in
      let msg := "CreateSchedule returns unexpected type of error, err: " +:+ text in
      reply entry topSpan ErrorLevel status _code msg
        (gin_H status _code msg) (with_request status _code msg reqBytes)
  | None =>
      match rpcResp with
      | None => panic "invalid memory address or nil pointer dereference"
      | Some rpcResp =>
          if Status rpcResp =? http.StatusCreated then
            let status := http.StatusCreated in
            let _code := 0 in
            let msg := "succeed to create new schedule" in
            let sendResp : gmap string jval :=
              <["schedule_uuid" := JStr ""]> (gin_H status _code msg) in
            let respBytes := json_Marshal_H sendResp in
            reply entry topSpan InfoLevel status _code msg sendResp
              (<["response" := JStr respBytes]> (with_request status _code msg reqBytes))
          else if (Status rpcResp =? http.StatusRequestTimeout)
                  || (Status rpcResp =? http.StatusInternalServerError)
                  || (Status rpcResp =? http.StatusServiceUnavailable) then
            reply entry topSpan ErrorLevel
              (Status rpcResp) (Code rpcResp) (Msg rpcResp)
              (gin_H (Status rpcResp) (Code rpcResp) (Msg rpcResp))
              (with_request (Status rpcResp) (Code rpcResp) (Msg rpcResp) reqBytes)
          else
            reply entry topSpan InfoLevel
              (Status rpcResp) (Code rpcResp) (Msg rpcResp)
              (gin_H (Status rpcResp) (Code rpcResp) (Msg rpcResp))
              (with_request (Status rpcResp) (Code rpcResp) (Msg rpcResp) reqBytes)
      end
  end.

(** Lines 99-177: run the backend call through the node's breaker, then
    answer. *)
Definition dispatch (h : _default) (entry : option Entry) (topSpan reqID : string)
    (receivedReq : CreateScheduleRequest) (reqBytes : string)
    (uuidClaims : UUIDClaims) (selectedNode : Node) : M unit :=
  do r <- Run (Id selectedNode)
            (invoke h topSpan reqID receivedReq uuidClaims selectedNode);
  respond h entry topSpan reqBytes selectedNode r.

(** Lines 93-97: under [h.mutex], insert a fresh breaker for the node id if
    the map has none.  The lock itself matters only between goroutines and
    is modelled in [Module Registry]. *)
Definition getOrCreate (h : _default) (id : string) : M unit :=
  do w <- get;
  match breakers w !! id with
  | Some _ => ret tt
  | None =>
      emit (EBreakerNew id) >>
      set_breakers
        (<[id := breaker.New (ErrorThreshold (BreakerCfg h))
                   (SuccessThreshold (BreakerCfg h)) (Timeout (BreakerCfg h))]>
           (breakers w))
  end.

(** Lines 66-70: ask the consul agent for a node, inside its own span. *)
Definition resolve (h : _default) (topSpan reqID : string) : M (Node + agent_error) :=
  let consulSpan := "GetNextServiceNode" in
  StartSpan consulSpan (Some topSpan) >>
  emit (EGetNextServiceNode ScheduleServiceName) >>
  let r := GetNextServiceNode (consulAgent h) ScheduleServiceName in
  match r with
  | inl _ =>
      SetTag consulSpan "X-Request-Id" (JStr reqID) >>
      LogFields consulSpan [("SelectedNode", JOpaque)]
  | inr _ => ret tt
  end >>
  LogFields consulSpan [("error", JOpaque)] >>
  Finish consulSpan >>
  ret r.

(** Lines 66-177: resolve a node; on an error answer at once, otherwise
    register the node's breaker and dispatch. *)
Definition resolve_and_dispatch (h : _default) (entry : option Entry)
    (topSpan reqID : string) (receivedReq : CreateScheduleRequest)
    (reqBytes : string) (uuidClaims : UUIDClaims) : M unit :=
  do r <- resolve h topSpan reqID;
  match r with
  | inl selectedNode =>
      getOrCreate h (Id selectedNode) >>
      dispatch h entry topSpan reqID receivedReq reqBytes uuidClaims selectedNode
  | inr AvailableNodeNotExist =>
      let msg := "available schedule service node is not exist in consul" in
      let status := http.StatusServiceUnavailable in
      let _code := AvailableServiceNotExist in
      reply entry topSpan ErrorLevel status _code msg
        (gin_H status _code msg) (with_request status _code msg reqBytes)
  | inr (AgentError text) =>
      let msg := "unable to get service node from consul agent, err: " +:+ text in
      let status := http.StatusInternalServerError in
      let _code := 0 in
      reply entry topSpan ErrorLevel status _code msg
        (gin_H status _code msg) (with_request status _code msg reqBytes)
  end.

(** Lines 30-31: [c.Get("RequestLogEntry")] and the type assertion to
    [*logrus.Entry]; nil when the key is absent or holds something else. *)
Definition log_entry (c : Context) : option Entry :=
  match Keys c !! "RequestLogEntry" with
  | Some (VEntry e) => Some e
  | _ => None
  end.

(** Lines 41-177, after the log entry was found. *)
Definition authenticate_and_serve (h : _default) (c : Context)
    (entry : option Entry) (topSpan reqID : string) : M unit :=
  let '(ok, claims, _code, msg) := checkIfAuthenticated h c in
  if negb ok then
    let status := http.StatusUnauthorized in
    reply entry topSpan InfoLevel status _code msg
      (gin_H status _code msg) (gin_H status _code msg)
  else
    let uuidClaims := claims in
    let '(receivedReq, (ok, _code, msg)) := checkIfValidRequest h c in
    let reqBytes := json_Marshal_request receivedReq in
    if negb ok then
      let status := http.StatusBadRequest in
      reply entry topSpan InfoLevel status _code msg
        (gin_H status _code msg) (with_request status _code msg reqBytes)
    else
      resolve_and_dispatch h entry topSpan reqID receivedReq reqBytes uuidClaims.

(** [func (h *_default) CreateSchedule(c *gin.Context)]. *)
Definition CreateSchedule (h : _default) (c : Context) : M unit :=
  let reqID := GetHeader c "X-Request-Id" in
  let topSpan := Method c +:+ " " +:+ FullPath c in
  StartSpan topSpan None >>
  SetTag topSpan "X-Request-Id" (JStr reqID) >>
  let entry := log_entry c in
  let ok := bool_decide (is_Some entry) in
  if negb ok then
    let msg := "unable to get request log entry from middleware" in
    let status := http.StatusInternalServerError in
    reply entry topSpan ErrorLevel status 0 msg
      (gin_H status 0 msg) (gin_H status 0 msg)
  else
    authenticate_and_serve h c entry topSpan reqID.

(** ** Timers firing *)

Definition run_callback (h : _default) (f : callback) : M unit :=
  match f with
  | CallPassTTLHealth checkID note => callPassTTLHealth h checkID note >> ret tt
  end.

Fixpoint fire (h : _default) (ts : list Timer) : M unit :=
  match ts with
  | [] => ret tt
  | t :: ts' => run_callback h (run t) >> fire h ts'
  end.

Definition is_due (t : Z) (tm : Timer) : bool := due tm <=? t.

(** The clock moves to [t] (it never goes back); every timer due by then
    runs its callback and is dropped, the others stay pending. *)
Definition advance (h : _default) (t : Z) : M unit :=
  fun w =>
    let t' := Z.max (now w) t in
    fire h (List.filter (is_due t') (timers w))
      {| now := t'; breakers := breakers w;
         timers := List.filter (fun tm => negb (is_due t' tm)) (timers w) |}.

(** ** Reading a trace *)

(** The [c.JSON] calls: status line and body. *)
Definition responses (t : list event) : list (Z * gmap string jval) :=
  omap (fun e => match e with EJSON s b => Some (s, b) | _ => None end) t.

(** The records written through the request's log entry. *)
Definition log_records (t : list event) : list (level * gmap string jval) :=
  omap (fun e => match e with ELog l f => Some (l, f) | _ => None end) t.

(** The calls of [scheduleService.CreateSchedule]: address, request id and
    request. *)
Definition backend_calls (t : list event) : list (string * string * RpcRequest) :=
  omap (fun e => match e with EBackendCall a i r => Some (a, i, r) | _ => None end) t.

(** The health signals issued, each with check id and note. *)
Definition fail_signals (t : list event) : list (string * string) :=
  omap (fun e => match e with EFailTTLHealth c n _ => Some (c, n) | _ => None end) t.

Definition pass_signals (t : list event) : list (string * string) :=
  omap (fun e => match e with EPassTTLHealth c n _ => Some (c, n) | _ => None end) t.

(** The uses of the breaker package: [breaker.New] and [Breaker.Run]. *)
Definition breaker_uses (t : list event) : list event :=
  List.filter
    (fun e => match e with EBreakerNew _ | EBreakerRun _ _ => true | _ => false end) t.

(** A trace with the results of the health calls blanked: what the handler
    did, apart from what the consul agent answered to the two signals. *)
Definition blank_health (e : event) : event :=
  match e with
  | EFailTTLHealth c n _ => EFailTTLHealth c n None
  | EPassTTLHealth c n _ => EPassTTLHealth c n None
  | _ => e
  end.

(** Some field of a log record carries the text [txt]. *)
Definition mentions (txt : string) (fields : gmap string jval) : bool :=
  existsb
    (fun kv => match snd kv with JStr s => containsb txt s | _ => false end)
    (map_to_list fields).

(** The health calls of a trace that returned an error. *)
Definition health_failures (t : list event) : list string :=
  omap (fun e => match e with
                 | EFailTTLHealth _ _ r | EPassTTLHealth _ _ r => r
                 | _ => None
                 end) t.

(** The trace holds a log record that carries [txt]. *)
Definition logged (txt : string) (t : list event) : bool :=
  existsb (fun r => mentions txt (snd r)) (log_records t).

(** ** Gates before node resolution *)

Definition authenticated (h : _default) (c : Context) : bool :=
  fst (fst (fst (checkIfAuthenticated h c))).

Definition valid (h : _default) (c : Context) : bool :=
  fst (fst (snd (checkIfValidRequest h c))).

(** The request has a log entry, is authenticated and is well formed: the
    handler reaches node resolution. *)
Definition passes_gates (h : _default) (c : Context) : bool :=
  bool_decide (is_Some (log_entry c)) && authenticated h c && valid h c.

(** What node resolution answers. *)
Definition resolved (h : _default) : Node + agent_error :=
  GetNextServiceNode (consulAgent h) ScheduleServiceName.

(** The node's breaker rejects at the present instant.  A node without a
    breaker gets a fresh, Closed one, which does not reject. *)
Definition breaker_rejects (w : World) (n : Node) : bool :=
  match breakers w !! Id n with
  | Some b => breaker.rejects (now w) b
  | None => false
  end.

(** The validated request body, the caller's claims and the name of the
    request's span, as the handler computes them from the context. *)
Definition receivedReq_of (h : _default) (c : Context) : CreateScheduleRequest :=
  fst (checkIfValidRequest h c).
Definition claims_of (h : _default) (c : Context) : UUIDClaims :=
  snd (fst (fst (checkIfAuthenticated h c))).
Definition topSpan_of (c : Context) : string := Method c +:+ " " +:+ FullPath c.

(** What the backend answers to this request at this node. *)
Definition backend_answer (h : _default) (c : Context) (n : Node)
    : DefaultScheduleResponse + error :=
  scheduleService h (GetHeader c "X-Request-Id")
    (set_Uuid (GenerateGRPCRequest (receivedReq_of h c)) (UUID (claims_of h c)))
    (Address n).

(** The pair of [rpcResp] and [rpcErr] the closure leaves behind. *)
Definition as_pair (r : DefaultScheduleResponse + error)
    : option DefaultScheduleResponse * option error :=
  match r with
  | inl resp => (Some resp, None)
  | inr e => (None, Some e)
  end.

(** ** Runs, composed *)

(** [pre] happened first, then [r]. *)
Definition prepend {A} (pre : list event) (r : outcome A * World * list event)
    : outcome A * World * list event :=
  (fst (fst r), snd (fst r), pre ++ snd r).

(** The world with [b] stored under [id] in [h.breakers]. *)
Definition set_breaker (w : World) (id : string) (b : Breaker) : World :=
  {| now := now w; breakers := <[id := b]> (breakers w); timers := timers w |}.

(** [h] with other answers to the two health signals. *)
Definition with_health (h : _default)
    (failTTL passTTL : string -> string -> option string) : _default :=
  {| consulAgent :=
       {| GetNextServiceNode := GetNextServiceNode (consulAgent h);
          FailTTLHealth := failTTL; PassTTLHealth := passTTL |};
     scheduleService := scheduleService h;
     BreakerCfg := BreakerCfg h;
     checkIfAuthenticated := checkIfAuthenticated h;
     checkIfValidRequest := checkIfValidRequest h |}.

(** The span and resolution events that precede the breaker on every request
    that reaches a node. *)
Definition up_to_node (c : Context) : list event :=
  [EStartSpan (topSpan_of c) None;
   ESetTag (topSpan_of c) "X-Request-Id" (JStr (GetHeader c "X-Request-Id"));
   EStartSpan "GetNextServiceNode" (Some (topSpan_of c));
   EGetNextServiceNode ScheduleServiceName;
   ESetTag "GetNextServiceNode" "X-Request-Id" (JStr (GetHeader c "X-Request-Id"));
   ELogFields "GetNextServiceNode" [("SelectedNode", JOpaque)];
   ELogFields "GetNextServiceNode" [("error", JOpaque)];
   EFinish "GetNextServiceNode"].

(** The events of a request that reached a node whose breaker let the call
    through: resolution, the breaker (created first when the node is new),
    and the backend call inside its span. *)
Definition up_to_answer (h : _default) (c : Context) (w : World) (node : Node)
    : list event :=
  up_to_node c
  ++ match breakers w !! Id node with
     | Some _ => []
     | None => [EBreakerNew (Id node)]
     end
  ++ [EBreakerRun (Id node) true;
      EStartSpan "CreateSchedule" (Some (topSpan_of c));
      EBackendCall (Address node) (GetHeader c "X-Request-Id")
        (set_Uuid (GenerateGRPCRequest (receivedReq_of h c)) (UUID (claims_of h c)));
      ESetTag "CreateSchedule" "X-Request-Id" (JStr (GetHeader c "X-Request-Id"));
      ELogFields "CreateSchedule"
        [("request", JOpaque); ("response", JOpaque); ("error", JOpaque)];
      EFinish "CreateSchedule"].

(** The breaker the call runs through: the node's, or a fresh one. *)
Definition breaker_of (h : _default) (w : World) (node : Node) : Breaker :=
  default
    (breaker.New (ErrorThreshold (BreakerCfg h)) (SuccessThreshold (BreakerCfg h))
       (Timeout (BreakerCfg h)))
    (breakers w !! Id node).

(** The world after the call was recorded by the breaker. *)
Definition after_call (h : _default) (c : Context) (w : World) (node : Node) : World :=
  set_breaker w (Id node)
    (breaker.record (now w)
       (bool_decide (is_Some (snd (as_pair (backend_answer h c node)))))
       (breaker.current (now w) (breaker_of h w node))).

(** ** The breaker-open answer *)

(** The message of line 115. *)
Definition open_message (h : _default) (node : Node) : string :=
  "circuit breaker is open (service id: " +:+ Id node +:+ ", time out: "
  +:+ Duration_String (Timeout (BreakerCfg h)) +:+ ")".

(** [selectedNode.Metadata["CheckID"]]. *)
Definition checkID_of (node : Node) : string := index (Metadata node) "CheckID".

(** The timer line 118 registers. *)
Definition recovery_timer (h : _default) (w : World) (node : Node) : Timer :=
  {| due := now w + Timeout (BreakerCfg h);
     run := CallPassTTLHealth (checkID_of node) "close circuit breaker" |}.

(** What a timer does when it fires, and the signal it stands for. *)
Definition fired (h : _default) (tm : Timer) : event :=
  match run tm with
  | CallPassTTLHealth checkID note =>
      EPassTTLHealth checkID note (PassTTLHealth (consulAgent h) checkID note)
  end.

Definition signal_of (tm : Timer) : string * string :=
  match run tm with CallPassTTLHealth checkID note => (checkID, note) end.

(** The one call a request makes when its breaker lets it through. *)
Definition the_call (h : _default) (c : Context) (node : Node)
    : string * string * RpcRequest :=
  (Address node, GetHeader c "X-Request-Id",
   set_Uuid (GenerateGRPCRequest (receivedReq_of h c)) (UUID (claims_of h c))).

(** The status, code and message a request stopped by authentication or by
    validation is answered with (lines 46 and 58). *)
Definition gate_answer (h : _default) (c : Context) : Z * Z * string :=
  if authenticated h c
  then (http.StatusBadRequest,
        snd (fst (snd (checkIfValidRequest h c))), snd (snd (checkIfValidRequest h c)))
  else (http.StatusUnauthorized,
        snd (fst (checkIfAuthenticated h c)), snd (checkIfAuthenticated h c)).

(** A run with the results of its health calls blanked. *)
Definition blank {A} (r : outcome A * World * list event)
    : outcome A * World * list event :=
  (fst (fst r), snd (fst r), map blank_health (snd r)).

(** ** Vocabulary of the properties that hold on every path *)

(** The events of the block every branch ends with (see [reply]), for a
    request whose log entry is [e]. *)
Definition reply_trace (e : Entry) (topSpan : string) (lvl : level)
    (status code : Z) (msg : string) (body fields : gmap string jval) : list event :=
  [EJSON status body;
   ELog lvl (fields ∪ Data e);
   ELogFields topSpan
     [("status", JInt status); ("code", JInt code); ("message", JStr msg)];
   ESetTag topSpan "status" (JInt status);
   ESetTag topSpan "code" (JInt code);
   EFinish topSpan].

(** The spans a trace starts, and the spans it finishes, in order. *)
Definition started (t : list event) : list string :=
  omap (fun e => match e with EStartSpan n _ => Some n | _ => None end) t.

Definition finished (t : list event) : list string :=
  omap (fun e => match e with EFinish n => Some n | _ => None end) t.

(** The timers the [time.AfterFunc] calls of a trace register, when the
    trace starts at instant [t0]. *)
Definition scheduled (t0 : Z) (t : list event) : list Timer :=
  omap (fun e => match e with
                 | EAfterFunc d f => Some {| due := t0 + d; run := f |}
                 | _ => None
                 end) t.

(** The keys the handler writes into a log record. *)
Definition answer_keys : list string :=
  ["status"; "code"; "message"; "request"; "response"].

(** [m] holds the status, the code and the message under their keys. *)
Definition holds (m : gmap string jval) (status code : Z) (msg : string) : Prop :=
  m !! "status" = Some (JInt status)
  /\ m !! "code" = Some (JInt code)
  /\ m !! "message" = Some (JStr msg).

(** [m] has no key outside the answer keys. *)
Definition confined (m : gmap string jval) : Prop :=
  forall k, k ∉ answer_keys -> m !! k = None.

(** The statuses 408, 500 and 503. *)
Definition is_failure (status : Z) : bool :=
  (status =? http.StatusRequestTimeout)
  || (status =? http.StatusInternalServerError)
  || (status =? http.StatusServiceUnavailable).

(** The level a request answered with [status] is logged at. *)
Definition level_of (status : Z) : level :=
  if is_failure status then ErrorLevel else InfoLevel.

(** The timer that goes with a failing signal issued at [w]. *)
Definition recovery_for (h : _default) (w : World) (s : string * string) : Timer :=
  {| due := now w + Timeout (BreakerCfg h);
     run := CallPassTTLHealth (fst s) "close circuit breaker" |}.

(** What holds of everything a request does before it answers: [pre] is the
    trace up to the answer, [w] and [w'] the worlds before and after. *)
Definition before_the_answer (h : _default) (c : Context) (w w' : World)
    (pre : list event) : Prop :=
  responses pre = []
  /\ log_records pre = []
  /\ pass_signals pre = []
  /\ started pre = topSpan_of c :: finished pre
  /\ now w' = now w
  /\ timers w' = timers w ++ scheduled (now w) pre
  /\ scheduled (now w) pre = map (recovery_for h w) (fail_signals pre)
  /\ (length (fail_signals pre) <= 1)%nat.

(** The node's breaker after it recorded the backend call of this request:
    as a failure when the call returned an error, as a success when it
    returned a response, whatever status the response declares. *)
Definition recorded (h : _default) (c : Context) (w : World) (node : Node) : Breaker :=
  breaker.record (now w)
    (match backend_answer h c node with inl _ => false | inr _ => true end)
    (breaker.current (now w) (breaker_of h w node)).

End Handler.

(** ** Lines 93-100 between goroutines *)

(** Every request runs [CreateSchedule] in a goroutine of its own, and all of
    them share [h.mutex] and [h.breakers].  This is the part of the handler
    that touches the shared map, one statement per step:
<<
  h.mutex.Lock()                                   // 93
  if _, ok := h.breakers[id]; !ok {                // 94
      h.breakers[id] = breaker.New(...)            // 95
  }
  h.mutex.Unlock()                                 // 97
  err = h.breakers[id].Run(...)                    // 100
>>
    A breaker is named by the order of its allocation.  The assignment of
    line 95 takes two steps, its start and its end, because Go's map marks
    itself as being written for the length of an assignment ([hashWriting])
    and every map access checks the mark: a read that meets it ends the
    process with "concurrent map read and map write", a write that meets it
    with "concurrent map writes". *)
Module Registry.

(** Where a goroutine stands. *)
Inductive pc : Type :=
  | AtLock
  | AtCheck
  | AtNew
  | InAssign (b : nat)
  | AtUnlock
  | AtRead
  | Running (b : option nat).

Record goroutine : Type := { node_id : string; at_ : pc }.

Record state : Type := {
  mutex : bool;
  h_breakers : gmap string nat;
  writing : bool;
  allocated : list string;
  goroutines : list goroutine;
  fatal : option string
}.

(** One request per node id, none started, an empty map. *)
Definition init (ids : list string) : state :=
  {| mutex := false; h_breakers := ∅; writing := false; allocated := [];
     goroutines := map (fun id => {| node_id := id; at_ := AtLock |}) ids;
     fatal := None |}.

Definition moved (s : state) (i : nat) (g : goroutine) (p : pc) : list goroutine :=
  <[i := {| node_id := node_id g; at_ := p |}]> (goroutines s).

Definition die (s : state) (why : string) : state :=
  {| mutex := mutex s; h_breakers := h_breakers s; writing := writing s;
     allocated := allocated s; goroutines := goroutines s; fatal := Some why |}.

(** Goroutine [i] executes its next statement; [None] when it cannot (it is
    blocked on the mutex, it has reached [Run], or the process is gone). *)
Definition step (i : nat) (s : state) : option state :=
  match fatal s with
  | Some _ => None
  | None =>
      match goroutines s !! i with
      | None => None
      | Some g =>
          match at_ g with
          | AtLock =>
              if mutex s then None
              else Some {| mutex := true; h_breakers := h_breakers s;
                           writing := writing s; allocated := allocated s;
                           goroutines := moved s i g AtCheck; fatal := None |}
          | AtCheck =>
              if writing s then Some (die s "concurrent map read and map write")
              else Some {| mutex := mutex s; h_breakers := h_breakers s;
                           writing := writing s; allocated := allocated s;
                           goroutines :=
                             moved s i g
                               (match h_breakers s !! node_id g with
                                | Some _ => AtUnlock
                                | None => AtNew
                                end);
                           fatal := None |}
          | AtNew =>
              if writing s then Some (die s "concurrent map writes")
              else Some {| mutex := mutex s; h_breakers := h_breakers s;
                           writing := true;
                           allocated := allocated s ++ [node_id g];
                           goroutines := moved s i g (InAssign (length (allocated s)));
                           fatal := None |}
          | InAssign b =>
              Some {| mutex := mutex s;
                      h_breakers := <[node_id g := b]> (h_breakers s);
                      writing := false; allocated := allocated s;
                      goroutines := moved s i g AtUnlock; fatal := None |}
          | AtUnlock =>
              Some {| mutex := false; h_breakers := h_breakers s;
                      writing := writing s; allocated := allocated s;
                      goroutines := moved s i g AtRead; fatal := None |}
          | AtRead =>
              if writing s then Some (die s "concurrent map read and map write")
              else Some {| mutex := mutex s; h_breakers := h_breakers s;
                           writing := writing s; allocated := allocated s;
                           goroutines := moved s i g (Running (h_breakers s !! node_id g));
                           fatal := None |}
          | Running _ => None
          end
      end
  end.

(** A schedule names the goroutine that runs next; a goroutine that cannot
    step is skipped. *)
Fixpoint run (sched : list nat) (s : state) : state :=
  match sched with
  | [] => s
  | i :: rest => run rest (default s (step i s))
  end.

(** Holding the mutex. *)
Definition in_cs (p : pc) : bool :=
  match p with
  | AtCheck | AtNew | InAssign _ | AtUnlock => true
  | _ => false
  end.

(** A goroutine past the critical section: the map holds its node's
    breaker. *)
Definition past_cs (p : pc) : bool :=
  match p with
  | AtUnlock | AtRead => true
  | _ => false
  end.

(** What holds in every state the goroutines can reach. *)
Record consistent (s : state) : Prop := {
  cs_unique : forall i j gi gj,
    goroutines s !! i = Some gi -> goroutines s !! j = Some gj ->
    in_cs (at_ gi) = true -> in_cs (at_ gj) = true -> i = j;
  cs_locked : forall i g,
    goroutines s !! i = Some g -> in_cs (at_ g) = true -> mutex s = true;
  allocated_once : NoDup (allocated s);
  stored_allocated : forall id b,
    h_breakers s !! id = Some b -> allocated s !! b = Some id;
  allocated_stored : forall id,
    id ∈ allocated s ->
    is_Some (h_breakers s !! id)
    \/ exists i g b, goroutines s !! i = Some g /\ node_id g = id /\ at_ g = InAssign b;
  new_is_missing : forall i g,
    goroutines s !! i = Some g -> at_ g = AtNew -> h_breakers s !! node_id g = None;
  assign_is_missing : forall i g b,
    goroutines s !! i = Some g -> at_ g = InAssign b ->
    h_breakers s !! node_id g = None /\ allocated s !! b = Some (node_id g);
  past_is_stored : forall i g,
    goroutines s !! i = Some g -> past_cs (at_ g) = true ->
    is_Some (h_breakers s !! node_id g);
  running_is_stored : forall i g ob,
    goroutines s !! i = Some g -> at_ g = Running ob ->
    is_Some ob /\ h_breakers s !! node_id g = ob
}.

End Registry.

(** What else holds in every state the goroutines can reach: the map is
    being written only by a goroutine inside its assignment, a locked mutex
    has a holder, and the process has ended only on a read at line 100 that
    met a write. *)
Record registry_orderly (s : Registry.state) : Prop := {
  writer_exists :
    Registry.writing s = true ->
    exists i g b,
      Registry.goroutines s !! i = Some g /\ Registry.at_ g = Registry.InAssign b;
  holder_exists :
    Registry.mutex s = true ->
    exists i g,
      Registry.goroutines s !! i = Some g /\ Registry.in_cs (Registry.at_ g) = true;
  abort_is_a_read :
    forall why, Registry.fatal s = Some why ->
      why = "concurrent map read and map write"
      /\ Registry.writing s = true
      /\ exists i g,
           Registry.goroutines s !! i = Some g /\ Registry.at_ g = Registry.AtRead
}.

(** ** Sample inputs *)

(** A concrete environment: the imported declarations, one schedule node, a
    consul agent, handlers around three backends, requests with and without
    the log entry, and worlds in which the node's breaker is absent or Open. *)
Module Sample.

(** Stands in for [time.Duration.String] on whole seconds below a minute,
    which Go prints as the number followed by "s". *)
Definition seconds (d : Z) : string := fmt_d (d / 1000000000) +:+ "s".

Definition imports : Imports := {|
  CreateScheduleRequest := string;
  RpcRequest := string * string;
  GenerateGRPCRequest := fun r => (r, "");
  set_Uuid := fun r u => (fst r, u);
  AvailableServiceNotExist := -1001;
  CircuitBreakerOpen := -1002;
  ScheduleServiceName := "DMS.SMS.v1.service.schedule";
  ErrBreakerOpen_Error := "circuit breaker is open";
  Duration_String := seconds;
  json_Marshal_request := fun r => r;
  json_Marshal_H := fun _ => "{...}"
|}.
#[local] Existing Instance imports.

Definition node1 : Node :=
  {| Id := "schedule-1"; Address := "10.0.0.7:8080";
     Metadata := {[ "CheckID" := "service:schedule-1" ]} |}.

Definition cfg : BreakerConfig :=
  {| ErrorThreshold := 3; SuccessThreshold := 2; Timeout := 30000000000 |}.

(** The agent resolves [node1]; both health signals fail. *)
Definition agent_down : ConsulAgent :=
  {| GetNextServiceNode := fun _ => inl node1;
     FailTTLHealth := fun _ _ => Some "consul agent unreachable";
     PassTTLHealth := fun _ _ => Some "consul agent unreachable" |}.

(** The agent has no node to offer, or fails otherwise. *)
Definition agent_empty : ConsulAgent :=
  {| GetNextServiceNode := fun _ => inr AvailableNodeNotExist;
     FailTTLHealth := fun _ _ => None;
     PassTTLHealth := fun _ _ => None |}.

Definition agent_broken : ConsulAgent :=
  {| GetNextServiceNode := fun _ => inr (AgentError "connection refused");
     FailTTLHealth := fun _ _ => None;
     PassTTLHealth := fun _ _ => None |}.

Definition handler_with (a : ConsulAgent)
    (backend : DefaultScheduleResponse + error) : _default :=
  {| consulAgent := a;
     scheduleService := fun _ _ _ => backend;
     BreakerCfg := cfg;
     checkIfAuthenticated := fun _ => (true, {| UUID := "student-1" |}, 0, "");
     checkIfValidRequest := fun _ => ("{}", (true, 0, "")) |}.

(** The backend creates the schedule and names it in its body. *)
Definition created : DefaultScheduleResponse :=
  {| Status := 201; Code := 0; Msg := "created"; ScheduleUuid := "schedule-123456" |}.


Definition h_created := handler_with agent_down (inl created).
Definition h_timeout := handler_with agent_down (inr (MicroError 408 "call timeout")).
Definition h_empty := handler_with agent_empty (inl created).
Definition h_broken := handler_with agent_broken (inl created).

(** The caller's token is not accepted. *)
Definition h_unauthenticated : _default :=
  {| consulAgent := agent_down;
     scheduleService := fun _ _ _ => inl created;
     BreakerCfg := cfg;
     checkIfAuthenticated := fun _ => (false, {| UUID := "" |}, -101, "token expired");
     checkIfValidRequest := fun _ => ("{}", (true, 0, "")) |}.

(** The same handler with a consul agent that accepts both signals. *)
Definition h_created_up :=
  with_health h_created (fun _ _ => None) (fun _ _ => None).

Definition request : Context :=
  {| Method := "POST"; FullPath := "/v1/schedules";
     Header := {[ "X-Request-Id" := "req-1" ]};
     Keys := {[ "RequestLogEntry" := VEntry {| Data := ∅ |} ]} |}.

(** The middleware did not store the log entry. *)
Definition request_without_entry : Context :=
  {| Method := "POST"; FullPath := "/v1/schedules";
     Header := {[ "X-Request-Id" := "req-1" ]};
     Keys := ∅ |}.

Definition fresh : World := {| now := 100; breakers := ∅; timers := [] |}.

(** [node1]'s breaker opened at instant 50 and is still cooling down. *)
Definition tripped : World :=
  {| now := 100;
     breakers := {[ "schedule-1" :=
                    breaker.with_state (breaker.New 3 2 30000000000) breaker.open 50 ]};
     timers := [] |}.

(** The world after three requests in a row met a backend that timed out. *)
Definition after_three_timeouts : World :=
  world_of (CreateSchedule h_timeout request)
    (world_of (CreateSchedule h_timeout request)
       (world_of (CreateSchedule h_timeout request) fresh)).

(** A node registered without a health check id, its agent and its breaker,
    opened at instant 50 and still cooling down. *)
Definition node2 : Node :=
  {| Id := "schedule-2"; Address := "10.0.0.8:8080"; Metadata := ∅ |}.

Definition agent_unchecked : ConsulAgent :=
  {| GetNextServiceNode := fun _ => inl node2;
     FailTTLHealth := fun _ _ => None;
     PassTTLHealth := fun _ _ => None |}.

Definition h_unchecked := handler_with agent_unchecked (inl created).

Definition tripped2 : World :=
  {| now := 100;
     breakers := {[ "schedule-2" :=
                    breaker.with_state (breaker.New 3 2 30000000000) breaker.open 50 ]};
     timers := [] |}.

(** The backend declares itself unavailable in its response. *)
Definition unavailable : DefaultScheduleResponse :=
  {| Status := 503; Code := -3001; Msg := "database unreachable"; ScheduleUuid := "" |}.

Definition h_unavailable := handler_with agent_down (inl unavailable).



(** The request came without the X-Request-Id header. *)
Definition request_without_id : Context :=
  {| Method := "POST"; FullPath := "/v1/schedules";
     Header := ∅;
     Keys := {[ "RequestLogEntry" := VEntry {| Data := ∅ |} ]} |}.



End Sample.

(** * Properties *)

Section HandlerProperties.

Context {imp : Imports}.








(** ** Running the monad *)

Lemma bind_Returned {A B} (m : M A) (k : A -> M B) w a w1 t1 :
  m w = (Returned a, w1, t1) ->
  bind m k w = (let '(r, w2, t2) := k a w1 in (r, w2, t1 ++ t2)).
Proof. intros E. unfold bind. rewrite E. reflexivity. Qed.

(** ** The building blocks, run *)

Lemma reply_Some e topSpan lvl status code msg body fields w :
  reply (Some e) topSpan lvl status code msg body fields w =
  (Returned tt, w,
   [EJSON status body;
    ELog lvl (fields ∪ Data e);
    ELogFields topSpan
      [("status", JInt status); ("code", JInt code); ("message", JStr msg)];
    ESetTag topSpan "status" (JInt status);
    ESetTag topSpan "code" (JInt code);
    EFinish topSpan]).
Proof. destruct lvl; reflexivity. Qed.

Lemma reply_None topSpan lvl status code msg body fields w :
  reply None topSpan lvl status code msg body fields w =
  (Panicked "invalid memory address or nil pointer dereference", w,
   [EJSON status body]).
Proof. reflexivity. Qed.

Lemma resolve_node h topSpan reqID w node :
  resolved h = inl node ->
  resolve h topSpan reqID w =
  (Returned (inl node), w,
   [EStartSpan "GetNextServiceNode" (Some topSpan);
    EGetNextServiceNode ScheduleServiceName;
    ESetTag "GetNextServiceNode" "X-Request-Id" (JStr reqID);
    ELogFields "GetNextServiceNode" [("SelectedNode", JOpaque)];
    ELogFields "GetNextServiceNode" [("error", JOpaque)];
    EFinish "GetNextServiceNode"]).
Proof. unfold resolve, resolved. intros ->. reflexivity. Qed.

Lemma resolve_error h topSpan reqID w err :
  resolved h = inr err ->
  resolve h topSpan reqID w =
  (Returned (inr err), w,
   [EStartSpan "GetNextServiceNode" (Some topSpan);
    EGetNextServiceNode ScheduleServiceName;
    ELogFields "GetNextServiceNode" [("error", JOpaque)];
    EFinish "GetNextServiceNode"]).
Proof. unfold resolve, resolved. intros ->. reflexivity. Qed.

Lemma invoke_run h topSpan reqID rq claims node w :
  invoke h topSpan reqID rq claims node w =
  (Returned
     (match scheduleService h reqID (set_Uuid (GenerateGRPCRequest rq) (UUID claims))
              (Address node) with
      | inl resp => (Some resp, None)
      | inr e => (None, Some e)
      end),
   w,
   [EStartSpan "CreateSchedule" (Some topSpan);
    EBackendCall (Address node) reqID (set_Uuid (GenerateGRPCRequest rq) (UUID claims));
    ESetTag "CreateSchedule" "X-Request-Id" (JStr reqID);
    ELogFields "CreateSchedule"
      [("request", JOpaque); ("response", JOpaque); ("error", JOpaque)];
    EFinish "CreateSchedule"]).
Proof.
  unfold invoke.
  destruct (scheduleService h reqID _ (Address node)); reflexivity.
Qed.


Lemma bind_prepend {A B} (m : M A) (k : A -> M B) w a w1 t1 :
  m w = (Returned a, w1, t1) -> bind m k w = prepend t1 (k a w1).
Proof.
  intros E. rewrite (bind_Returned _ _ _ _ _ _ E).
  unfold prepend. destruct (k a w1) as [[r w2] t2]. reflexivity.
Qed.

Lemma prepend_prepend {A} p q (r : outcome A * World * list event) :
  prepend p (prepend q r) = prepend (p ++ q) r.
Proof. unfold prepend. cbn [fst snd]. rewrite app_assoc. reflexivity. Qed.

Lemma Run_rejected id work w b :
  breakers w !! id = Some b ->
  breaker.rejects (now w) b = true ->
  Run id work w =
  (Returned (None, Some ErrBreakerOpen), w, [EBreakerRun id false]).
Proof.
  intros Hb Hr. unfold Run, breaker.rejects in *.
  rewrite (bind_prepend get _ w w w []) by reflexivity.
  rewrite Hb.
  assert (breaker.current (now w) b = b) as Hc.
  { unfold breaker.current in *. destruct (breaker.st b) eqn:Es; try reflexivity.
    destruct (_ <=? _); [| reflexivity]. discriminate. }
  rewrite Hc in *. rewrite (insert_id _ _ _ Hb).
  destruct (breaker.st b); try discriminate.
  destruct w; reflexivity.
Qed.

Lemma Run_passed id work w b r t :
  breakers w !! id = Some b ->
  breaker.rejects (now w) b = false ->
  work (set_breaker w id (breaker.current (now w) b)) =
    (Returned r, set_breaker w id (breaker.current (now w) b), t) ->
  Run id work w =
  (Returned r,
   set_breaker w id
     (breaker.record (now w) (bool_decide (is_Some (snd r)))
        (breaker.current (now w) b)),
   EBreakerRun id true :: t).
Proof.
  intros Hb Hr Hw. unfold Run, breaker.rejects in *.
  rewrite (bind_prepend get _ w w w []) by reflexivity.
  rewrite Hb. unfold set_breaker in *.
  destruct (breaker.st (breaker.current (now w) b)) eqn:Es; try discriminate.
  all: unfold prepend, bind, set_breakers, emit, get, ret; cbn [fst snd app].
  all: rewrite Hw; cbn [fst snd app now breakers timers].
  all: rewrite insert_insert_eq, app_nil_r; reflexivity.
Qed.


Lemma getOrCreate_present h id w b :
  breakers w !! id = Some b ->
  getOrCreate h id w = (Returned tt, w, []).
Proof. intros Hb. unfold getOrCreate, bind, get. rewrite Hb. reflexivity. Qed.

Lemma getOrCreate_absent h id w :
  breakers w !! id = None ->
  getOrCreate h id w =
  (Returned tt,
   set_breaker w id
     (breaker.New (ErrorThreshold (BreakerCfg h))
        (SuccessThreshold (BreakerCfg h)) (Timeout (BreakerCfg h))),
   [EBreakerNew id]).
Proof. intros Hb. unfold getOrCreate, bind, get. rewrite Hb. reflexivity. Qed.

Lemma dispatch_rejected h entry topSpan reqID rq bytes claims node w b :
  breakers w !! Id node = Some b ->
  breaker.rejects (now w) b = true ->
  dispatch h entry topSpan reqID rq bytes claims node w =
  prepend [EBreakerRun (Id node) false]
    (respond h entry topSpan bytes node (None, Some ErrBreakerOpen) w).
Proof.
  intros Hb Hr. unfold dispatch.
  apply bind_prepend. by apply (Run_rejected _ _ _ b).
Qed.

Lemma dispatch_passed h entry topSpan reqID rq bytes claims node w b :
  breakers w !! Id node = Some b ->
  breaker.rejects (now w) b = false ->
  dispatch h entry topSpan reqID rq bytes claims node w =
  prepend
    [EBreakerRun (Id node) true;
     EStartSpan "CreateSchedule" (Some topSpan);
     EBackendCall (Address node) reqID (set_Uuid (GenerateGRPCRequest rq) (UUID claims));
     ESetTag "CreateSchedule" "X-Request-Id" (JStr reqID);
     ELogFields "CreateSchedule"
       [("request", JOpaque); ("response", JOpaque); ("error", JOpaque)];
     EFinish "CreateSchedule"]
    (respond h entry topSpan bytes node
       (as_pair (scheduleService h reqID
                   (set_Uuid (GenerateGRPCRequest rq) (UUID claims)) (Address node)))
       (set_breaker w (Id node)
          (breaker.record (now w)
             (bool_decide
                (is_Some
                   (snd (as_pair (scheduleService h reqID
                                    (set_Uuid (GenerateGRPCRequest rq) (UUID claims))
                                    (Address node))))))
             (breaker.current (now w) b)))).
Proof.
  intros Hb Hr. unfold dispatch.
  apply bind_prepend. apply (Run_passed _ _ _ b); [done | done |].
  apply invoke_run.
Qed.

Lemma resolve_and_dispatch_node h entry topSpan reqID rq bytes claims w node :
  resolved h = inl node ->
  resolve_and_dispatch h entry topSpan reqID rq bytes claims w =
  prepend
    [EStartSpan "GetNextServiceNode" (Some topSpan);
     EGetNextServiceNode ScheduleServiceName;
     ESetTag "GetNextServiceNode" "X-Request-Id" (JStr reqID);
     ELogFields "GetNextServiceNode" [("SelectedNode", JOpaque)];
     ELogFields "GetNextServiceNode" [("error", JOpaque)];
     EFinish "GetNextServiceNode"]
    (bind (getOrCreate h (Id node))
       (fun _ => dispatch h entry topSpan reqID rq bytes claims node) w).
Proof.
  intros Hr. unfold resolve_and_dispatch.
  rewrite (bind_prepend _ _ _ _ _ _ (resolve_node _ _ _ _ _ Hr)).
  reflexivity.
Qed.

Lemma resolve_and_dispatch_error h entry topSpan reqID rq bytes claims w err :
  resolved h = inr err ->
  resolve_and_dispatch h entry topSpan reqID rq bytes claims w =
  prepend
    [EStartSpan "GetNextServiceNode" (Some topSpan);
     EGetNextServiceNode ScheduleServiceName;
     ELogFields "GetNextServiceNode" [("error", JOpaque)];
     EFinish "GetNextServiceNode"]
    (match err with
     | AvailableNodeNotExist =>
         reply entry topSpan ErrorLevel
           http.StatusServiceUnavailable AvailableServiceNotExist
           "available schedule service node is not exist in consul"
           (gin_H http.StatusServiceUnavailable AvailableServiceNotExist
              "available schedule service node is not exist in consul")
           (with_request http.StatusServiceUnavailable AvailableServiceNotExist
              "available schedule service node is not exist in consul" bytes)
     | AgentError text =>
         reply entry topSpan ErrorLevel http.StatusInternalServerError 0
           ("unable to get service node from consul agent, err: " +:+ text)
           (gin_H http.StatusInternalServerError 0
              ("unable to get service node from consul agent, err: " +:+ text))
           (with_request http.StatusInternalServerError 0
              ("unable to get service node from consul agent, err: " +:+ text) bytes)
     end w).
Proof.
  intros Hr. unfold resolve_and_dispatch.
  rewrite (bind_prepend _ _ _ _ _ _ (resolve_error _ _ _ _ _ Hr)).
  destruct err; reflexivity.
Qed.

Lemma CreateSchedule_serves h c w e :
  log_entry c = Some e ->
  authenticated h c = true ->
  valid h c = true ->
  CreateSchedule h c w =
  prepend
    [EStartSpan (topSpan_of c) None;
     ESetTag (topSpan_of c) "X-Request-Id" (JStr (GetHeader c "X-Request-Id"))]
    (resolve_and_dispatch h (Some e) (topSpan_of c) (GetHeader c "X-Request-Id")
       (receivedReq_of h c) (json_Marshal_request (receivedReq_of h c))
       (claims_of h c) w).
Proof.
  unfold authenticated, valid, receivedReq_of, claims_of, topSpan_of.
  intros He Ha Hv. unfold CreateSchedule, authenticate_and_serve. rewrite He.
  destruct (checkIfAuthenticated h c) as [[[ok claims] code] msg].
  destruct (checkIfValidRequest h c) as [rq [[okv codev] msgv]].
  cbn [fst snd] in *. subst ok okv.
  rewrite bool_decide_eq_true_2 by (by eexists). cbn [negb].
  unfold bind at 1 2, StartSpan, SetTag, emit, prepend. cbn [app fst snd].
  match goal with |- context [resolve_and_dispatch ?a ?b ?c ?d ?e ?f ?g w] =>
    destruct (resolve_and_dispatch a b c d e f g w) as [[r w2] t2] end.
  reflexivity.
Qed.


(** ** Reading the trace of a composed run *)

Lemma events_prepend {A} pre (r : outcome A * World * list event) :
  snd (prepend pre r) = pre ++ snd r.
Proof. reflexivity. Qed.

Lemma responses_app t1 t2 : responses (t1 ++ t2) = responses t1 ++ responses t2.
Proof. apply omap_app. Qed.

Lemma backend_calls_app t1 t2 :
  backend_calls (t1 ++ t2) = backend_calls t1 ++ backend_calls t2.
Proof. apply omap_app. Qed.

(** ** The paths of the handler *)

Lemma passes_gates_true h c :
  passes_gates h c = true ->
  exists e, log_entry c = Some e /\ authenticated h c = true /\ valid h c = true.
Proof.
  unfold passes_gates. intros Hg.
  apply andb_true_iff in Hg as [Hg Hv]. apply andb_true_iff in Hg as [He Ha].
  apply bool_decide_eq_true_1 in He as [e He]. eauto.
Qed.

Lemma fresh_breaker_passes t e s d : breaker.rejects t (breaker.New e s d) = false.
Proof. reflexivity. Qed.

Lemma CreateSchedule_rejected h c w e node :
  log_entry c = Some e ->
  authenticated h c = true ->
  valid h c = true ->
  resolved h = inl node ->
  breaker_rejects w node = true ->
  CreateSchedule h c w =
  prepend (up_to_node c ++ [EBreakerRun (Id node) false])
    (respond h (Some e) (topSpan_of c) (json_Marshal_request (receivedReq_of h c))
       node (None, Some ErrBreakerOpen) w).
Proof.
  intros He Ha Hv Hn Hr. unfold breaker_rejects in Hr.
  destruct (breakers w !! Id node) as [b|] eqn:Hb; [| discriminate].
  rewrite (CreateSchedule_serves _ _ _ _ He Ha Hv).
  rewrite (resolve_and_dispatch_node _ _ _ _ _ _ _ _ _ Hn).
  rewrite (bind_prepend _ _ _ _ _ _ (getOrCreate_present _ _ _ _ Hb)).
  rewrite (dispatch_rejected _ _ _ _ _ _ _ _ _ _ Hb Hr).
  rewrite !prepend_prepend. reflexivity.
Qed.

Lemma CreateSchedule_passed h c w e node :
  log_entry c = Some e ->
  authenticated h c = true ->
  valid h c = true ->
  resolved h = inl node ->
  breaker_rejects w node = false ->
  CreateSchedule h c w =
  prepend (up_to_answer h c w node)
    (respond h (Some e) (topSpan_of c) (json_Marshal_request (receivedReq_of h c))
       node (as_pair (backend_answer h c node)) (after_call h c w node)).
Proof.
  intros He Ha Hv Hn Hr.
  unfold breaker_rejects in Hr. unfold up_to_answer, after_call, breaker_of.
  rewrite (CreateSchedule_serves _ _ _ _ He Ha Hv).
  rewrite (resolve_and_dispatch_node _ _ _ _ _ _ _ _ _ Hn).
  destruct (breakers w !! Id node) as [b|] eqn:Hb.
  - rewrite (bind_prepend _ _ _ _ _ _ (getOrCreate_present _ _ _ _ Hb)).
    rewrite (dispatch_passed _ _ _ _ _ _ _ _ _ _ Hb Hr).
    rewrite !prepend_prepend. reflexivity.
  - rewrite (bind_prepend _ _ _ _ _ _ (getOrCreate_absent h _ _ Hb)).
    erewrite dispatch_passed;
      [| apply lookup_insert_eq | apply fresh_breaker_passes].
    rewrite !prepend_prepend. unfold set_breaker. cbn [now breakers timers default].
    rewrite insert_insert_eq. reflexivity.
Qed.


Lemma respond_breaker_open h e topSpan bytes node resp w :
  respond h (Some e) topSpan bytes node (resp, Some ErrBreakerOpen) w =
  (Returned tt,
   {| now := now w; breakers := breakers w;
      timers := timers w ++ [recovery_timer h w node] |},
   [EFailTTLHealth (checkID_of node) ErrBreakerOpen_Error
      (FailTTLHealth (consulAgent h) (checkID_of node) ErrBreakerOpen_Error);
    EAfterFunc (Timeout (BreakerCfg h))
      (CallPassTTLHealth (checkID_of node) "close circuit breaker");
    EJSON http.StatusServiceUnavailable
      (gin_H http.StatusServiceUnavailable CircuitBreakerOpen (open_message h node));
    ELog ErrorLevel
      (with_request http.StatusServiceUnavailable CircuitBreakerOpen
         (open_message h node) bytes ∪ Data e);
    ELogFields topSpan
      [("status", JInt http.StatusServiceUnavailable);
       ("code", JInt CircuitBreakerOpen); ("message", JStr (open_message h node))];
    ESetTag topSpan "status" (JInt http.StatusServiceUnavailable);
    ESetTag topSpan "code" (JInt CircuitBreakerOpen);
    EFinish topSpan]).
Proof. reflexivity. Qed.





Lemma fire_run h ts w : fire h ts w = (Returned tt, w, map (fired h) ts).
Proof.
  revert w. induction ts as [|tm ts IH]; intros w; [reflexivity |].
  cbn [fire map]. unfold fired. destruct (run tm) as [checkID note].
  rewrite (bind_prepend _ _ w tt w
             [EPassTTLHealth checkID note (PassTTLHealth (consulAgent h) checkID note)])
    by reflexivity.
  rewrite IH. reflexivity.
Qed.

Lemma pass_signals_fired h ts : pass_signals (map (fired h) ts) = map signal_of ts.
Proof.
  induction ts as [|tm ts IH]; [reflexivity |].
  cbn [map]. unfold fired at 1, signal_of at 1. destruct (run tm).
  cbn. f_equal. exact IH.
Qed.

Lemma advance_run h t w :
  advance h t w =
  (Returned tt,
   {| now := Z.max (now w) t; breakers := breakers w;
      timers := List.filter (fun tm => negb (is_due (Z.max (now w) t) tm)) (timers w) |},
   map (fired h) (List.filter (is_due (Z.max (now w) t)) (timers w))).
Proof. unfold advance. apply fire_run. Qed.

(** C2.  On a breaker-open rejection the handler issues the failing signal
    itself, once, and returns; it issues no passing signal itself, and leaves
    exactly one more pending timer, due one cool-down after the present
    instant, whose callback is the passing signal for the node's check id.
    While the clock stays before that instant the timer does not fire; once
    the clock has reached it, the timer fires exactly one passing signal and
    is gone. *)
Theorem breaker_open_health_signals h c w node :
  passes_gates h c = true ->
  resolved h = inl node ->
  breaker_rejects w node = true ->
  outcome_of (CreateSchedule h c) w = Returned tt
  /\ fail_signals (events_of (CreateSchedule h c) w) =
       [(checkID_of node, ErrBreakerOpen_Error)]
  /\ pass_signals (events_of (CreateSchedule h c) w) = []
  /\ now (world_of (CreateSchedule h c) w) = now w
  /\ timers (world_of (CreateSchedule h c) w) =
       timers w
       ++ [{| due := now w + Timeout (BreakerCfg h);
              run := CallPassTTLHealth (checkID_of node) "close circuit breaker" |}]
  /\ (forall t, Z.max (now w) t < now w + Timeout (BreakerCfg h) ->
        pass_signals (events_of (advance h t) (world_of (CreateSchedule h c) w)) =
        pass_signals (events_of (advance h t) w))
  /\ (forall t, now w + Timeout (BreakerCfg h) <= Z.max (now w) t ->
        pass_signals (events_of (advance h t) (world_of (CreateSchedule h c) w)) =
        pass_signals (events_of (advance h t) w)
        ++ [(checkID_of node, "close circuit breaker")]
        /\ timers (world_of (advance h t) (world_of (CreateSchedule h c) w)) =
           timers (world_of (advance h t) w)).
Proof.
  intros Hg Hn Hr. destruct (passes_gates_true _ _ Hg) as (e & He & Ha & Hv).
  unfold outcome_of, events_of, world_of.
  rewrite (CreateSchedule_rejected _ _ _ _ _ He Ha Hv Hn Hr), respond_breaker_open.
  cbn [prepend fst snd now timers breakers].
  split; [reflexivity |]. split; [reflexivity |]. split; [reflexivity |].
  split; [reflexivity |]. split; [reflexivity |].
  split; intros t Ht; rewrite !advance_run; cbn [fst snd now timers breakers];
    rewrite !pass_signals_fired, !List.filter_app; cbn [List.filter];
    fold (recovery_timer h w node).
  - assert (is_due (Z.max (now w) t) (recovery_timer h w node) = false) as ->
      by (apply Z.leb_gt; exact Ht).
    by rewrite app_nil_r.
  - assert (is_due (Z.max (now w) t) (recovery_timer h w node) = true) as ->
      by (apply Z.leb_le; exact Ht).
    cbn [negb]. rewrite map_app, app_nil_r. split; reflexivity.
Qed.


(** ** Answers to what the backend said *)

Lemma respond_created h entry topSpan bytes node resp w :
  Status resp = http.StatusCreated ->
  respond h entry topSpan bytes node (Some resp, None) w =
  reply entry topSpan InfoLevel http.StatusCreated 0 "succeed to create new schedule"
    (<["schedule_uuid" := JStr ""]>
       (gin_H http.StatusCreated 0 "succeed to create new schedule"))
    (<["response" :=
         JStr (json_Marshal_H
                 (<["schedule_uuid" := JStr ""]>
                    (gin_H http.StatusCreated 0 "succeed to create new schedule")))]>
       (with_request http.StatusCreated 0 "succeed to create new schedule" bytes))
    w.
Proof. intros Hs. unfold respond. rewrite Hs. reflexivity. Qed.


Lemma respond_timeout h entry topSpan bytes node resp detail w :
  respond h entry topSpan bytes node
    (resp, Some (MicroError http.StatusRequestTimeout detail)) w =
  reply entry topSpan ErrorLevel http.StatusRequestTimeout 0
    ("request time out for CreateSchedule service, detail: " +:+ detail)
    (gin_H http.StatusRequestTimeout 0
       ("request time out for CreateSchedule service, detail: " +:+ detail))
    (with_request http.StatusRequestTimeout 0
       ("request time out for CreateSchedule service, detail: " +:+ detail) bytes) w.
Proof. reflexivity. Qed.

Lemma respond_micro_error h entry topSpan bytes node resp code detail w :
  code <> http.StatusRequestTimeout ->
  respond h entry topSpan bytes node (resp, Some (MicroError code detail)) w =
  reply entry topSpan ErrorLevel http.StatusInternalServerError 0
    ("CreateSchedule returns unexpected micro error, code: " +:+ fmt_d code
     +:+ ", detail: " +:+ detail)
    (gin_H http.StatusInternalServerError 0
       ("CreateSchedule returns unexpected micro error, code: " +:+ fmt_d code
        +:+ ", detail: " +:+ detail))
    (with_request http.StatusInternalServerError 0
       ("CreateSchedule returns unexpected micro error, code: " +:+ fmt_d code
        +:+ ", detail: " +:+ detail) bytes) w.
Proof.
  intros Hc. unfold respond.
  destruct (Z.eqb_spec code http.StatusRequestTimeout) as [|_]; [contradiction |].
  reflexivity.
Qed.

Lemma respond_other_error h entry topSpan bytes node resp text w :
  respond h entry topSpan bytes node (resp, Some (OtherError text)) w =
  reply entry topSpan ErrorLevel http.StatusInternalServerError 0
    ("CreateSchedule returns unexpected type of error, err: " +:+ text)
    (gin_H http.StatusInternalServerError 0
       ("CreateSchedule returns unexpected type of error, err: " +:+ text))
    (with_request http.StatusInternalServerError 0
       ("CreateSchedule returns unexpected type of error, err: " +:+ text) bytes) w.
Proof. reflexivity. Qed.

Lemma up_to_answer_responses h c w node : responses (up_to_answer h c w node) = [].
Proof. unfold up_to_answer. destruct (breakers w !! Id node); reflexivity. Qed.

(** C4.  When the backend returns without error and declares status 201,
    the handler answers exactly once, with status 201, code 0 and the fixed
    message; the [schedule_uuid] field of the body is the empty string
    whatever the backend's response holds. *)
Theorem created_answer h c w node resp :
  passes_gates h c = true ->
  resolved h = inl node ->
  breaker_rejects w node = false ->
  backend_answer h c node = inl resp ->
  Status resp = http.StatusCreated ->
  outcome_of (CreateSchedule h c) w = Returned tt
  /\ responses (events_of (CreateSchedule h c) w) =
       [(201, {[ "status" := JInt 201; "code" := JInt 0;
                 "message" := JStr "succeed to create new schedule";
                 "schedule_uuid" := JStr "" ]})]
  /\ forall status body,
       (status, body) ∈ responses (events_of (CreateSchedule h c) w) ->
       body !! "schedule_uuid" = Some (JStr "").
Proof.
  intros Hg Hn Hr Hb Hs. destruct (passes_gates_true _ _ Hg) as (e & He & Ha & Hv).
  unfold outcome_of, events_of.
  rewrite (CreateSchedule_passed _ _ _ _ _ He Ha Hv Hn Hr), Hb.
  cbn [as_pair]. rewrite (respond_created _ _ _ _ _ _ _ Hs), reply_Some.
  rewrite events_prepend, responses_app, up_to_answer_responses.
  cbn [snd responses omap app].
  split; [reflexivity |]. split; [reflexivity |].
  intros status body Hbody. apply list_elem_of_singleton in Hbody.
  injection Hbody as -> ->. reflexivity.
Qed.




Lemma CreateSchedule_unresolved h c w e err :
  log_entry c = Some e ->
  authenticated h c = true ->
  valid h c = true ->
  resolved h = inr err ->
  exists status code msg,
    CreateSchedule h c w =
    (Returned tt, w,
     [EStartSpan (topSpan_of c) None;
      ESetTag (topSpan_of c) "X-Request-Id" (JStr (GetHeader c "X-Request-Id"));
      EStartSpan "GetNextServiceNode" (Some (topSpan_of c));
      EGetNextServiceNode ScheduleServiceName;
      ELogFields "GetNextServiceNode" [("error", JOpaque)];
      EFinish "GetNextServiceNode";
      EJSON status (gin_H status code msg);
      ELog ErrorLevel
        (with_request status code msg (json_Marshal_request (receivedReq_of h c))
         ∪ Data e);
      ELogFields (topSpan_of c)
        [("status", JInt status); ("code", JInt code); ("message", JStr msg)];
      ESetTag (topSpan_of c) "status" (JInt status);
      ESetTag (topSpan_of c) "code" (JInt code);
      EFinish (topSpan_of c)])
    /\ (status, code) =
       match err with
       | AvailableNodeNotExist =>
           (http.StatusServiceUnavailable, AvailableServiceNotExist)
       | AgentError _ => (http.StatusInternalServerError, 0)
       end.
Proof.
  intros He Ha Hv Hn.
  rewrite (CreateSchedule_serves _ _ _ _ He Ha Hv).
  rewrite (resolve_and_dispatch_error _ _ _ _ _ _ _ _ _ Hn).
  destruct err; rewrite reply_Some; eexists _, _, _; split; reflexivity.
Qed.

(** C5.  When node resolution fails, the handler answers exactly once and
    returns: with status 503 and code [AvailableServiceNotExist] for the
    available-node-not-exist signal, with status 500 and code 0 for any other
    error.  Either way no breaker is created or run, [h.breakers] is left as
    it was, and the backend is not called. *)
Theorem node_resolution_failure h c w err :
  passes_gates h c = true ->
  resolved h = inr err ->
  exists msg,
    outcome_of (CreateSchedule h c) w = Returned tt
    /\ responses (events_of (CreateSchedule h c) w) =
         match err with
         | AvailableNodeNotExist =>
             [(503, {[ "status" := JInt 503; "code" := JInt AvailableServiceNotExist;
                       "message" := JStr msg ]})]
         | AgentError _ =>
             [(500, {[ "status" := JInt 500; "code" := JInt 0;
                       "message" := JStr msg ]})]
         end
    /\ breaker_uses (events_of (CreateSchedule h c) w) = []
    /\ breakers (world_of (CreateSchedule h c) w) = breakers w
    /\ backend_calls (events_of (CreateSchedule h c) w) = [].
Proof.
  intros Hg Hn. destruct (passes_gates_true _ _ Hg) as (e & He & Ha & Hv).
  destruct (CreateSchedule_unresolved h c w e err He Ha Hv Hn)
    as (status & code & msg & Heq & Hsc).
  unfold outcome_of, events_of, world_of. rewrite Heq. exists msg.
  destruct err; injection Hsc as -> ->; repeat split; reflexivity.
Qed.


(** ** Requests stopped at a gate *)

Lemma CreateSchedule_no_entry h c w :
  log_entry c = None ->
  CreateSchedule h c w =
  (Panicked "invalid memory address or nil pointer dereference", w,
   [EStartSpan (topSpan_of c) None;
    ESetTag (topSpan_of c) "X-Request-Id" (JStr (GetHeader c "X-Request-Id"));
    EJSON http.StatusInternalServerError
      (gin_H http.StatusInternalServerError 0
         "unable to get request log entry from middleware")]).
Proof. intros He. unfold CreateSchedule. rewrite He. reflexivity. Qed.

Lemma CreateSchedule_stopped h c w e :
  log_entry c = Some e ->
  authenticated h c && valid h c = false ->
  exists status code msg fields,
    CreateSchedule h c w =
    (Returned tt, w,
     [EStartSpan (topSpan_of c) None;
      ESetTag (topSpan_of c) "X-Request-Id" (JStr (GetHeader c "X-Request-Id"));
      EJSON status (gin_H status code msg);
      ELog InfoLevel fields;
      ELogFields (topSpan_of c)
        [("status", JInt status); ("code", JInt code); ("message", JStr msg)];
      ESetTag (topSpan_of c) "status" (JInt status);
      ESetTag (topSpan_of c) "code" (JInt code);
      EFinish (topSpan_of c)])
    /\ status =
       if authenticated h c then http.StatusBadRequest else http.StatusUnauthorized.
Proof.
  unfold authenticated, valid. intros He Hg.
  unfold CreateSchedule, authenticate_and_serve. rewrite He.
  rewrite bool_decide_eq_true_2 by (by eexists). cbn [negb].
  destruct (checkIfAuthenticated h c) as [[[ok claims] code] msg].
  destruct (checkIfValidRequest h c) as [rq [[okv codev] msgv]].
  cbn [fst snd] in *.
  destruct ok; cbn [negb].
  - destruct okv; [discriminate |]. cbn [negb].
    eexists _, _, _, _. split; reflexivity.
  - eexists _, _, _, _. split; reflexivity.
Qed.

(** A request with a log entry that fails authentication is answered 401,
    and one that passes it but fails validation is answered 400, each with
    the code and message of the failed check.  The handler returns at once:
    the consul agent is not asked for a node, no breaker is created or run,
    the backend is not called and the world is left as it was. *)
Theorem stopped_at_a_gate h c w e :
  log_entry c = Some e ->
  authenticated h c && valid h c = false ->
  outcome_of (CreateSchedule h c) w = Returned tt
  /\ responses (events_of (CreateSchedule h c) w) =
       [(fst (fst (gate_answer h c)),
         gin_H (fst (fst (gate_answer h c))) (snd (fst (gate_answer h c)))
           (snd (gate_answer h c)))]
  /\ world_of (CreateSchedule h c) w = w
  /\ (EGetNextServiceNode ScheduleServiceName ∉ events_of (CreateSchedule h c) w)
  /\ breaker_uses (events_of (CreateSchedule h c) w) = []
  /\ backend_calls (events_of (CreateSchedule h c) w) = [].
Proof.
  unfold gate_answer, authenticated, valid, outcome_of, events_of, world_of.
  intros He Hg.
  unfold CreateSchedule, authenticate_and_serve. rewrite He.
  rewrite bool_decide_eq_true_2 by (by eexists). cbn [negb].
  destruct (checkIfAuthenticated h c) as [[[ok claims] code] msg].
  destruct (checkIfValidRequest h c) as [rq [[okv codev] msgv]].
  cbn [fst snd] in *.
  assert (forall (t : list event), Forall (fun ev => ev <> EGetNextServiceNode ScheduleServiceName) t ->
            EGetNextServiceNode ScheduleServiceName ∉ t) as Hnot.
  { intros t Ht Hin. rewrite Forall_forall in Ht. by eapply Ht. }
  destruct ok; cbn [negb].
  - destruct okv; [discriminate |]. cbn [negb].
    repeat split; try reflexivity.
    apply Hnot. repeat constructor; discriminate.
  - repeat split; try reflexivity.
    apply Hnot. repeat constructor; discriminate.
Qed.

(** ** How often the backend is called *)

Lemma reply_backend_calls entry topSpan lvl status code msg body fields w :
  backend_calls (snd (reply entry topSpan lvl status code msg body fields w)) = [].
Proof. destruct entry; [rewrite reply_Some | rewrite reply_None]; reflexivity. Qed.

Lemma respond_backend_calls h entry topSpan bytes node r w :
  backend_calls (snd (respond h entry topSpan bytes node r w)) = [].
Proof.
  destruct r as [resp [[|code detail|text]|]].
  - destruct entry; reflexivity.
  - unfold respond. destruct (code =? _); apply reply_backend_calls.
  - apply reply_backend_calls.
  - destruct resp as [resp|]; [| reflexivity].
    unfold respond. destruct (_ =? _); [apply reply_backend_calls |].
    destruct (_ || _); apply reply_backend_calls.
Qed.

(** Every request, by the point at which it stops. *)
Lemma backend_calls_CreateSchedule h c w :
  backend_calls (events_of (CreateSchedule h c) w) =
  if passes_gates h c then
    match resolved h with
    | inl node => if breaker_rejects w node then [] else [the_call h c node]
    | inr _ => []
    end
  else [].
Proof.
  unfold events_of, passes_gates.
  destruct (log_entry c) as [e|] eqn:He.
  2:{ rewrite bool_decide_eq_false_2 by (by intros [? ?]).
      rewrite (CreateSchedule_no_entry _ _ _ He). reflexivity. }
  rewrite bool_decide_eq_true_2 by (by eexists). rewrite <- andb_assoc. cbn [andb].
  destruct (authenticated h c && valid h c) eqn:Hg.
  2:{ destruct (CreateSchedule_stopped h c w e He Hg) as (? & ? & ? & ? & -> & _).
      reflexivity. }
  apply andb_true_iff in Hg as [Ha Hv].
  destruct (resolved h) as [node|err] eqn:Hn.
  2:{ destruct (CreateSchedule_unresolved h c w e err He Ha Hv Hn)
        as (? & ? & ? & -> & _). reflexivity. }
  destruct (breaker_rejects w node) eqn:Hr.
  - rewrite (CreateSchedule_rejected _ _ _ _ _ He Ha Hv Hn Hr).
    rewrite events_prepend, backend_calls_app, respond_backend_calls. reflexivity.
  - rewrite (CreateSchedule_passed _ _ _ _ _ He Ha Hv Hn Hr).
    rewrite events_prepend, backend_calls_app, respond_backend_calls.
    unfold up_to_answer. destruct (breakers w !! Id node); reflexivity.
Qed.

(** C9.  The backend is called at most once per request: exactly once when
    the request passed the gates, a node was resolved and its breaker let the
    call through; not at all when the request was stopped by authentication
    or validation, when node resolution failed, or when the breaker
    rejected. *)
Theorem backend_called_at_most_once h c w :
  (length (backend_calls (events_of (CreateSchedule h c) w)) <= 1)%nat
  /\ (forall node,
        passes_gates h c = true -> resolved h = inl node ->
        breaker_rejects w node = false ->
        backend_calls (events_of (CreateSchedule h c) w) = [the_call h c node])
  /\ (authenticated h c = false ->
        backend_calls (events_of (CreateSchedule h c) w) = [])
  /\ (valid h c = false ->
        backend_calls (events_of (CreateSchedule h c) w) = [])
  /\ (forall err, resolved h = inr err ->
        backend_calls (events_of (CreateSchedule h c) w) = [])
  /\ (forall node, resolved h = inl node -> breaker_rejects w node = true ->
        backend_calls (events_of (CreateSchedule h c) w) = []).
Proof.
  rewrite backend_calls_CreateSchedule. unfold passes_gates.
  split; [| split; [| split; [| split; [| split]]]].
  - destruct (_ && _); [| cbn; lia].
    destruct (resolved h) as [node|]; [| cbn; lia].
    destruct (breaker_rejects w node); cbn; lia.
  - intros node Hg -> ->. unfold passes_gates in Hg. rewrite Hg. reflexivity.
  - intros ->. rewrite andb_false_r. reflexivity.
  - intros ->. rewrite andb_false_r. reflexivity.
  - intros err ->. destruct (_ && _); reflexivity.
  - intros node -> ->. destruct (_ && _); reflexivity.
Qed.

(** C10, on the code.  When the log entry is missing from the context, the
    handler writes the 500 answer and then calls [WithFields] on the nil
    entry: the request ends in a nil-pointer panic, nothing is logged and the
    request's span is never finished. *)
Theorem missing_entry_panics h c w :
  log_entry c = None ->
  outcome_of (CreateSchedule h c) w =
    Panicked "invalid memory address or nil pointer dereference"
  /\ responses (events_of (CreateSchedule h c) w) =
       [(500, {[ "status" := JInt 500; "code" := JInt 0;
                 "message" := JStr "unable to get request log entry from middleware" ]})]
  /\ log_records (events_of (CreateSchedule h c) w) = []
  /\ (EFinish (topSpan_of c) ∉ events_of (CreateSchedule h c) w).
Proof.
  intros He. unfold outcome_of, events_of.
  rewrite (CreateSchedule_no_entry _ _ _ He).
  repeat split; try reflexivity.
  cbn [snd]. rewrite !not_elem_of_cons. repeat split; try discriminate.
  apply not_elem_of_nil.
Qed.


Lemma blank_prepend {A} pre (r : outcome A * World * list event) :
  blank (prepend pre r) = prepend (map blank_health pre) (blank r).
Proof. unfold blank, prepend. cbn [fst snd]. by rewrite map_app. Qed.

Lemma respond_blank h f1 p1 f2 p2 entry topSpan bytes node r w :
  blank (respond (with_health h f1 p1) entry topSpan bytes node r w) =
  blank (respond (with_health h f2 p2) entry topSpan bytes node r w).
Proof.
  destruct r as [resp [[|code detail|text]|]]; try reflexivity.
  destruct entry; reflexivity.
Qed.

(** The handler's run is the same, up to the recorded results of the health
    calls, whatever the consul agent answers to the two signals. *)
Lemma CreateSchedule_blank h f1 p1 f2 p2 c w :
  blank (CreateSchedule (with_health h f1 p1) c w) =
  blank (CreateSchedule (with_health h f2 p2) c w).
Proof.
  destruct (log_entry c) as [e|] eqn:He.
  2:{ by rewrite !(CreateSchedule_no_entry _ _ _ He). }
  destruct (authenticated h c && valid h c) eqn:Hg.
  2:{ unfold authenticated, valid in Hg.
      unfold CreateSchedule, authenticate_and_serve. rewrite He.
      cbn [checkIfAuthenticated checkIfValidRequest with_health].
      destruct (checkIfAuthenticated h c) as [[[ok claims] code] msg].
      destruct (checkIfValidRequest h c) as [rq [[okv codev] msgv]].
      cbn [fst snd] in Hg. destruct ok; [destruct okv; [discriminate |] |];
        reflexivity. }
  apply andb_true_iff in Hg as [Ha Hv].
  destruct (resolved h) as [node|err] eqn:Hn.
  2:{ rewrite (CreateSchedule_serves (with_health h f1 p1) c w e He Ha Hv).
      rewrite (CreateSchedule_serves (with_health h f2 p2) c w e He Ha Hv).
      rewrite (resolve_and_dispatch_error (with_health h f1 p1) _ _ _ _ _ _ _ err Hn).
      rewrite (resolve_and_dispatch_error (with_health h f2 p2) _ _ _ _ _ _ _ err Hn).
      reflexivity. }
  destruct (breaker_rejects w node) eqn:Hr.
  - rewrite (CreateSchedule_rejected (with_health h f1 p1) c w e node He Ha Hv Hn Hr).
    rewrite (CreateSchedule_rejected (with_health h f2 p2) c w e node He Ha Hv Hn Hr).
    rewrite !blank_prepend, (respond_blank h f1 p1 f2 p2). reflexivity.
  - rewrite (CreateSchedule_passed (with_health h f1 p1) c w e node He Ha Hv Hn Hr).
    rewrite (CreateSchedule_passed (with_health h f2 p2) c w e node He Ha Hv Hn Hr).
    rewrite !blank_prepend, (respond_blank h f1 p1 f2 p2). reflexivity.
Qed.

Lemma responses_blank t : responses (map blank_health t) = responses t.
Proof.
  unfold responses. induction t as [|e t IH]; [reflexivity |].
  destruct e; simpl; first [exact IH | f_equal; exact IH].
Qed.

Lemma log_records_blank t : log_records (map blank_health t) = log_records t.
Proof.
  unfold log_records. induction t as [|e t IH]; [reflexivity |].
  destruct e; simpl; first [exact IH | f_equal; exact IH].
Qed.

(** C8, as the code has it.  Two runs that differ only in what the consul
    agent answers to [FailTTLHealth] and [PassTTLHealth] end the same way, in
    the same world (pending timers included), with the same answers and the
    same log records, and their traces differ at most in the results recorded
    for the health calls.  On the breaker-open path that common answer is the
    503 [CircuitBreakerOpen] one, and the handler's log records are the one
    record of that answer: the result of the failing signal is dropped. *)
Theorem health_results_do_not_reach_the_request h f1 p1 f2 p2 c w :
  outcome_of (CreateSchedule (with_health h f1 p1) c) w =
    outcome_of (CreateSchedule (with_health h f2 p2) c) w
  /\ world_of (CreateSchedule (with_health h f1 p1) c) w =
     world_of (CreateSchedule (with_health h f2 p2) c) w
  /\ map blank_health (events_of (CreateSchedule (with_health h f1 p1) c) w) =
     map blank_health (events_of (CreateSchedule (with_health h f2 p2) c) w)
  /\ responses (events_of (CreateSchedule (with_health h f1 p1) c) w) =
     responses (events_of (CreateSchedule (with_health h f2 p2) c) w)
  /\ log_records (events_of (CreateSchedule (with_health h f1 p1) c) w) =
     log_records (events_of (CreateSchedule (with_health h f2 p2) c) w)
  /\ (forall node e,
        log_entry c = Some e -> authenticated h c = true -> valid h c = true ->
        resolved h = inl node -> breaker_rejects w node = true ->
        responses (events_of (CreateSchedule (with_health h f1 p1) c) w) =
          [(http.StatusServiceUnavailable,
            gin_H http.StatusServiceUnavailable CircuitBreakerOpen (open_message h node))]
        /\ log_records (events_of (CreateSchedule (with_health h f1 p1) c) w) =
             [(ErrorLevel,
               with_request http.StatusServiceUnavailable CircuitBreakerOpen
                 (open_message h node) (json_Marshal_request (receivedReq_of h c))
               ∪ Data e)]).
Proof.
  pose proof (CreateSchedule_blank h f1 p1 f2 p2 c w) as Hb.
  unfold blank in Hb. injection Hb as Ho Hw Ht.
  unfold outcome_of, world_of, events_of.
  split; [exact Ho |]. split; [exact Hw |]. split; [exact Ht |].
  split; [by rewrite <- responses_blank, Ht, responses_blank |].
  split; [by rewrite <- log_records_blank, Ht, log_records_blank |].
  intros node e He Ha Hv Hn Hr.
  rewrite (CreateSchedule_rejected (with_health h f1 p1) c w e node He Ha Hv Hn Hr).
  rewrite respond_breaker_open. split; reflexivity.
Qed.

End HandlerProperties.

(** * The breaker registry between goroutines *)

Section RegistryProperties.

Import Registry.

Lemma lookup_moved s i g p j gj :
  goroutines s !! i = Some g ->
  moved s i g p !! j = Some gj ->
  (j = i /\ gj = {| node_id := node_id g; at_ := p |})
  \/ (j <> i /\ goroutines s !! j = Some gj).
Proof.
  intros Hi Hj. unfold moved in Hj.
  destruct (decide (j = i)) as [->|Hne].
  - rewrite list_lookup_insert_eq in Hj by (by eapply lookup_lt_Some).
    left. split; congruence.
  - rewrite list_lookup_insert_ne in Hj by done. by right.
Qed.

Lemma lookup_moved_other s i g p j gj :
  j <> i -> goroutines s !! j = Some gj -> moved s i g p !! j = Some gj.
Proof. intros Hne Hj. unfold moved. by rewrite list_lookup_insert_ne. Qed.

Lemma lookup_moved_self s i g p :
  goroutines s !! i = Some g ->
  moved s i g p !! i = Some {| node_id := node_id g; at_ := p |}.
Proof.
  intros Hi. unfold moved. rewrite list_lookup_insert_eq; [done |].
  by eapply lookup_lt_Some.
Qed.

Lemma init_consistent ids : consistent (init ids).
Proof.
  assert (forall i g, goroutines (init ids) !! i = Some g -> at_ g = AtLock) as Hall.
  { intros i g Hg. unfold init in Hg. cbn in Hg.
    rewrite list_lookup_fmap in Hg. destruct (ids !! i); by simplify_eq/=. }
  split; cbn [init mutex h_breakers allocated].
  - intros i j gi gj Hi _ Hc. by rewrite (Hall _ _ Hi) in Hc.
  - intros i g Hi Hc. by rewrite (Hall _ _ Hi) in Hc.
  - constructor.
  - intros id b Hb. by rewrite lookup_empty in Hb.
  - intros id Hid. by apply elem_of_nil in Hid.
  - intros i g Hi Hc. apply lookup_empty.
  - intros i g b Hi Hc. by rewrite (Hall _ _ Hi) in Hc.
  - intros i g Hi Hc. by rewrite (Hall _ _ Hi) in Hc.
  - intros i g ob Hi Hc. by rewrite (Hall _ _ Hi) in Hc.
Qed.

Lemma die_consistent s why : consistent s -> consistent (die s why).
Proof. intros [? ? ? ? ? ? ? ? ?]. by split. Qed.

(** Splits on whether a goroutine found in the state after a step is the
    one that moved. *)
Ltac who_moved Hi :=
  repeat match goal with
  | H : moved _ _ _ _ !! _ = Some _ |- _ =>
      destruct (lookup_moved _ _ _ _ _ _ Hi H) as [[-> ->] | [? ?]]; clear H
  end; cbn [at_ node_id in_cs past_cs] in *.

Lemma lock_consistent s i g :
  consistent s -> goroutines s !! i = Some g -> at_ g = AtLock -> mutex s = false ->
  consistent {| mutex := true; h_breakers := h_breakers s; writing := writing s;
                allocated := allocated s; goroutines := moved s i g AtCheck;
                fatal := None |}.
Proof.
  intros C Hi Hpc Hm.
  assert (forall j gj, goroutines s !! j = Some gj -> in_cs (at_ gj) = false) as Hfree.
  { intros j gj Hj. destruct (in_cs (at_ gj)) eqn:E; [| done].
    rewrite (cs_locked s C j gj Hj E) in Hm. discriminate. }
  split; cbn [mutex h_breakers allocated goroutines].
  - intros a b ga gb Ha Hb Hca Hcb. who_moved Hi; try done; exfalso;
      match goal with
      | Hj : goroutines s !! _ = Some ?gj, Hc : in_cs (at_ ?gj) = true |- _ =>
          rewrite (Hfree _ _ Hj) in Hc; discriminate
      end.
  - done.
  - apply C.
  - apply C.
  - intros id Hid. destruct (allocated_stored s C id Hid) as [?|(j & gj & b & Hj & Hn & Hp)];
      [by left |].
    right. exists j, gj, b. split; [| done].
    apply lookup_moved_other; [| done]. intros ->. congruence.
  - intros j gj Hj Hp. who_moved Hi; [done |]. by eapply new_is_missing.
  - intros j gj b Hj Hp. who_moved Hi; [done |]. by eapply assign_is_missing.
  - intros j gj Hj Hp. who_moved Hi; [done |]. by eapply past_is_stored.
  - intros j gj ob Hj Hp. who_moved Hi; [done |]. by eapply running_is_stored.
Qed.

Lemma others_outside s i g j gj :
  consistent s -> goroutines s !! i = Some g -> in_cs (at_ g) = true ->
  j <> i -> goroutines s !! j = Some gj -> in_cs (at_ gj) = false.
Proof.
  intros C Hi Hc Hne Hj. destruct (in_cs (at_ gj)) eqn:E; [| done].
  by destruct Hne; eapply (cs_unique s C).
Qed.

(** Closes a goal about a goroutine other than the mover that would have to
    hold the mutex together with it. *)
Ltac not_both C Hi Hpc :=
  exfalso;
  match goal with
  | Hne : ?j <> _, Hj : goroutines _ !! ?j = Some ?gj |- _ =>
      let Hout := fresh in
      assert (in_cs (at_ gj) = false) as Hout
        by (eapply (others_outside _ _ _ j gj C Hi); [by rewrite Hpc | done | done]);
      first [ congruence
            | match goal with
              | Hp : at_ gj = _ |- _ => rewrite Hp in Hout; discriminate
              end ]
  end.

Lemma check_consistent s i g :
  consistent s -> goroutines s !! i = Some g -> at_ g = AtCheck ->
  consistent {| mutex := mutex s; h_breakers := h_breakers s; writing := writing s;
                allocated := allocated s;
                goroutines :=
                  moved s i g
                    (match h_breakers s !! node_id g with
                     | Some _ => AtUnlock
                     | None => AtNew
                     end);
                fatal := None |}.
Proof.
  intros C Hi Hpc.
  split; cbn [mutex h_breakers allocated goroutines].
  - intros a b ga gb Ha Hb Hca Hcb. who_moved Hi; try done; not_both C Hi Hpc.
  - intros j gj Hj Hc. who_moved Hi.
    + eapply (cs_locked s C i g); [done | by rewrite Hpc].
    + by eapply (cs_locked s C).
  - apply C.
  - apply C.
  - intros id Hid.
    destruct (allocated_stored s C id Hid) as [?|(j & gj & b & Hj & Hn & Hp)];
      [by left |].
    right. exists j, gj, b. split; [| done].
    apply lookup_moved_other; [| done]. intros ->. congruence.
  - intros j gj Hj Hp. who_moved Hi; [| by eapply new_is_missing].
    by destruct (h_breakers s !! node_id g).
  - intros j gj b Hj Hp. who_moved Hi; [| by eapply assign_is_missing].
    by destruct (h_breakers s !! node_id g).
  - intros j gj Hj Hp. who_moved Hi; [| by eapply past_is_stored].
    by destruct (h_breakers s !! node_id g).
  - intros j gj ob Hj Hp. who_moved Hi; [| by eapply running_is_stored].
    by destruct (h_breakers s !! node_id g).
Qed.

Lemma new_consistent s i g :
  consistent s -> goroutines s !! i = Some g -> at_ g = AtNew ->
  consistent {| mutex := mutex s; h_breakers := h_breakers s; writing := true;
                allocated := allocated s ++ [node_id g];
                goroutines := moved s i g (InAssign (length (allocated s)));
                fatal := None |}.
Proof.
  intros C Hi Hpc.
  assert (node_id g ∉ allocated s) as Hfresh.
  { intros Hin.
    destruct (allocated_stored s C _ Hin) as [Hs|(j & gj & b & Hj & Hn & Hp)].
    - rewrite (new_is_missing s C i g Hi Hpc) in Hs. by destruct Hs.
    - assert (j = i) as -> by
        (eapply (cs_unique s C); [done | done | by rewrite Hp | by rewrite Hpc]).
      congruence. }
  split; cbn [mutex h_breakers allocated goroutines].
  - intros a b ga gb Ha Hb Hca Hcb. who_moved Hi; try done; not_both C Hi Hpc.
  - intros j gj Hj Hc. who_moved Hi.
    + eapply (cs_locked s C i g); [done | by rewrite Hpc].
    + by eapply (cs_locked s C).
  - apply NoDup_app. split; [apply C |]. split; [| apply NoDup_singleton].
    intros x Hx Hx'. apply list_elem_of_singleton in Hx' as ->. done.
  - intros id b Hb. apply lookup_app_l_Some. by apply C.
  - intros id Hid. apply elem_of_app in Hid as [Hid|Hid].
    + destruct (allocated_stored s C id Hid) as [?|(j & gj & b & Hj & Hn & Hp)];
        [by left |].
      right. exists j, gj, b. split; [| done].
      apply lookup_moved_other; [| done]. intros ->. congruence.
    + apply list_elem_of_singleton in Hid as ->. right.
      eexists i, _, _. split; [by apply lookup_moved_self | done].
  - intros j gj Hj Hp. who_moved Hi; [done |]. by eapply new_is_missing.
  - intros j gj b Hj Hp. who_moved Hi.
    + injection Hp as <-. split; [by eapply new_is_missing |].
      by rewrite lookup_app_r, Nat.sub_diag.
    + destruct (assign_is_missing s C j gj b) as [? ?]; [done | done |].
      split; [done |]. by apply lookup_app_l_Some.
  - intros j gj Hj Hp. who_moved Hi; [done |]. by eapply past_is_stored.
  - intros j gj ob Hj Hp. who_moved Hi; [done |]. by eapply running_is_stored.
Qed.

Lemma assign_consistent s i g b :
  consistent s -> goroutines s !! i = Some g -> at_ g = InAssign b ->
  consistent {| mutex := mutex s; h_breakers := <[node_id g := b]> (h_breakers s);
                writing := false; allocated := allocated s;
                goroutines := moved s i g AtUnlock; fatal := None |}.
Proof.
  intros C Hi Hpc.
  destruct (assign_is_missing s C i g b Hi Hpc) as [Hmiss Halloc].
  split; cbn [mutex h_breakers allocated goroutines].
  - intros a c ga gc Ha Hc Hca Hcc. who_moved Hi; try done; not_both C Hi Hpc.
  - intros j gj Hj Hc. who_moved Hi.
    + eapply (cs_locked s C i g); [done | by rewrite Hpc].
    + by eapply (cs_locked s C).
  - apply C.
  - intros id c Hc. destruct (decide (node_id g = id)) as [<-|Hne].
    + rewrite lookup_insert_eq in Hc. by injection Hc as <-.
    + rewrite lookup_insert_ne in Hc by done. by apply C.
  - intros id Hid. left.
    destruct (allocated_stored s C id Hid) as [Hs|(j & gj & c & Hj & Hn & Hp)].
    + apply lookup_insert_is_Some'. by right.
    + assert (j = i) as -> by
        (eapply (cs_unique s C); [done | done | by rewrite Hp | by rewrite Hpc]).
      assert (gj = g) as -> by congruence.
      rewrite <- Hn, lookup_insert_eq. by eexists.
  - intros j gj Hj Hp. who_moved Hi; [done |]. not_both C Hi Hpc.
  - intros j gj c Hj Hp. who_moved Hi; [done |]. not_both C Hi Hpc.
  - intros j gj Hj Hp. apply lookup_insert_is_Some'. who_moved Hi; [by left |].
    right. by eapply past_is_stored.
  - intros j gj ob Hj Hp. who_moved Hi; [done |].
    destruct (running_is_stored s C j gj ob) as [Hs Hl]; [done | done |].
    split; [done |]. rewrite lookup_insert_ne; [done |].
    intros Heq. rewrite <- Heq, Hmiss in Hl. subst ob. by destruct Hs.
Qed.

Lemma unlock_consistent s i g :
  consistent s -> goroutines s !! i = Some g -> at_ g = AtUnlock ->
  consistent {| mutex := false; h_breakers := h_breakers s; writing := writing s;
                allocated := allocated s; goroutines := moved s i g AtRead;
                fatal := None |}.
Proof.
  intros C Hi Hpc.
  split; cbn [mutex h_breakers allocated goroutines].
  - intros a c ga gc Ha Hc Hca Hcc. who_moved Hi; try done.
    by eapply (cs_unique s C).
  - intros j gj Hj Hc. who_moved Hi; [done |]. not_both C Hi Hpc.
  - apply C.
  - apply C.
  - intros id Hid.
    destruct (allocated_stored s C id Hid) as [?|(j & gj & c & Hj & Hn & Hp)];
      [by left |].
    right. exists j, gj, c. split; [| done].
    apply lookup_moved_other; [| done]. intros ->. congruence.
  - intros j gj Hj Hp. who_moved Hi; [done |]. by eapply new_is_missing.
  - intros j gj c Hj Hp. who_moved Hi; [done |]. by eapply assign_is_missing.
  - intros j gj Hj Hp. who_moved Hi; [| by eapply past_is_stored].
    eapply (past_is_stored s C i g); [done | by rewrite Hpc].
  - intros j gj ob Hj Hp. who_moved Hi; [done |]. by eapply running_is_stored.
Qed.

Lemma read_consistent s i g :
  consistent s -> goroutines s !! i = Some g -> at_ g = AtRead ->
  consistent {| mutex := mutex s; h_breakers := h_breakers s; writing := writing s;
                allocated := allocated s;
                goroutines := moved s i g (Running (h_breakers s !! node_id g));
                fatal := None |}.
Proof.
  intros C Hi Hpc.
  split; cbn [mutex h_breakers allocated goroutines].
  - intros a c ga gc Ha Hc Hca Hcc. who_moved Hi; try done.
    by eapply (cs_unique s C).
  - intros j gj Hj Hc. who_moved Hi; [done |]. by eapply (cs_locked s C).
  - apply C.
  - apply C.
  - intros id Hid.
    destruct (allocated_stored s C id Hid) as [?|(j & gj & c & Hj & Hn & Hp)];
      [by left |].
    right. exists j, gj, c. split; [| done].
    apply lookup_moved_other; [| done]. intros ->. congruence.
  - intros j gj Hj Hp. who_moved Hi; [done |]. by eapply new_is_missing.
  - intros j gj c Hj Hp. who_moved Hi; [done |]. by eapply assign_is_missing.
  - intros j gj Hj Hp. who_moved Hi; [done |]. by eapply past_is_stored.
  - intros j gj ob Hj Hp. who_moved Hi; [| by eapply running_is_stored].
    injection Hp as <-. split; [| done].
    eapply (past_is_stored s C i g); [done | by rewrite Hpc].
Qed.

Lemma step_consistent i s s' : consistent s -> step i s = Some s' -> consistent s'.
Proof.
  intros C Hs. unfold step in Hs.
  destruct (fatal s); [discriminate |].
  destruct (goroutines s !! i) as [g|] eqn:Hi; [| discriminate].
  destruct (at_ g) eqn:Hpc.
  - destruct (mutex s) eqn:Hm; [discriminate |]. injection Hs as <-.
    by apply lock_consistent.
  - destruct (writing s) eqn:Hw; injection Hs as <-;
      [by apply die_consistent | rewrite <- Hw; by apply check_consistent].
  - destruct (writing s) eqn:Hw; injection Hs as <-;
      [by apply die_consistent | by apply new_consistent].
  - injection Hs as <-. by apply assign_consistent.
  - injection Hs as <-. by apply unlock_consistent.
  - destruct (writing s) eqn:Hw; injection Hs as <-;
      [by apply die_consistent | rewrite <- Hw; by apply read_consistent].
  - discriminate.
Qed.

Lemma run_consistent sched s : consistent s -> consistent (run sched s).
Proof.
  revert s. induction sched as [|i sched IH]; intros s C; [done |].
  cbn [run]. apply IH. destruct (step i s) as [s'|] eqn:Hs; [| done].
  by eapply step_consistent.
Qed.



(** C3, on the code.  Two requests, for the nodes "schedule-1" and
    "schedule-2", against an empty map.  The first one inserts its breaker
    and releases the mutex; the second one takes the mutex and starts its own
    insert; the first one then reads the map at line 100, outside the mutex,
    while the map is being written: the Go runtime ends the process, and
    neither request gets to its breaker. *)
Theorem registry_read_outside_the_mutex :
  (at_ <$> goroutines
             (run [0; 0; 0; 0; 0; 1; 1; 1]%nat (init ["schedule-1"; "schedule-2"])))
    = [AtRead; InAssign 1%nat]
  /\ mutex (run [0; 0; 0; 0; 0; 1; 1; 1]%nat (init ["schedule-1"; "schedule-2"])) = true
  /\ writing (run [0; 0; 0; 0; 0; 1; 1; 1]%nat (init ["schedule-1"; "schedule-2"])) = true
  /\ fatal (run [0; 0; 0; 0; 0; 1; 1; 1; 0]%nat (init ["schedule-1"; "schedule-2"]))
       = Some "concurrent map read and map write"
  /\ (at_ <$> goroutines
                (run [0; 0; 0; 0; 0; 1; 1; 1; 0]%nat (init ["schedule-1"; "schedule-2"])))
       = [AtRead; InAssign 1%nat].
Proof. repeat split; vm_compute; reflexivity. Qed.

End RegistryProperties.

(** * The properties on the sample inputs *)


(** The same request leaves one timer, due 30 s after instant 100. *)
Lemma breaker_open_health_signals_on_sample :
  passes_gates Sample.h_created Sample.request = true
  /\ resolved Sample.h_created = inl Sample.node1
  /\ breaker_rejects Sample.tripped Sample.node1 = true
  /\ fail_signals
       (events_of (CreateSchedule Sample.h_created Sample.request) Sample.tripped)
       = [("service:schedule-1", "circuit breaker is open")]
  /\ timers (world_of (CreateSchedule Sample.h_created Sample.request) Sample.tripped)
       = [{| due := 30000000100;
             run := CallPassTTLHealth "service:schedule-1" "close circuit breaker" |}].
Proof.
  split; [reflexivity |]. split; [reflexivity |]. split; [reflexivity |].
  destruct (breaker_open_health_signals Sample.h_created Sample.request
              Sample.tripped Sample.node1 eq_refl eq_refl eq_refl)
    as (_ & Hfail & _ & _ & Htimers & _).
  split; [exact Hfail | exact Htimers].
Defined.

(** The backend names the schedule it created; the answer does not. *)
Lemma created_answer_on_sample :
  backend_answer Sample.h_created Sample.request Sample.node1 = inl Sample.created
  /\ ScheduleUuid Sample.created = "schedule-123456"
  /\ responses (events_of (CreateSchedule Sample.h_created Sample.request) Sample.fresh)
     = [(201, {[ "status" := JInt 201; "code" := JInt 0;
                 "message" := JStr "succeed to create new schedule";
                 "schedule_uuid" := JStr "" ]})].
Proof.
  split; [reflexivity |]. split; [reflexivity |].
  exact (proj1 (proj2 (created_answer Sample.h_created Sample.request Sample.fresh
                         Sample.node1 Sample.created
                         eq_refl eq_refl eq_refl eq_refl eq_refl))).
Defined.

(** The consul agent has no node, or cannot be reached. *)
Lemma node_resolution_failure_on_sample :
  (exists msg,
     responses (events_of (CreateSchedule Sample.h_empty Sample.request) Sample.fresh)
     = [(503, {[ "status" := JInt 503; "code" := JInt (-1001);
                 "message" := JStr msg ]})])
  /\ (exists msg,
        responses (events_of (CreateSchedule Sample.h_broken Sample.request) Sample.fresh)
        = [(500, {[ "status" := JInt 500; "code" := JInt 0;
                    "message" := JStr msg ]})]).
Proof.
  split.
  - destruct (node_resolution_failure Sample.h_empty Sample.request Sample.fresh
                AvailableNodeNotExist eq_refl eq_refl) as (msg & _ & Hr & _).
    exists msg. exact Hr.
  - destruct (node_resolution_failure Sample.h_broken Sample.request Sample.fresh
                (AgentError "connection refused") eq_refl eq_refl)
      as (msg & _ & Hr & _).
    exists msg. exact Hr.
Defined.



(** One call on the fresh world, none on the tripped one. *)
Lemma backend_called_at_most_once_on_sample :
  length (backend_calls
            (events_of (CreateSchedule Sample.h_created Sample.request) Sample.fresh))
    = 1%nat
  /\ backend_calls
       (events_of (CreateSchedule Sample.h_created Sample.request) Sample.tripped) = [].
Proof.
  split.
  - rewrite (proj1 (proj2 (backend_called_at_most_once Sample.h_created Sample.request
                             Sample.fresh))
               Sample.node1 eq_refl eq_refl eq_refl).
    reflexivity.
  - exact (proj2 (proj2 (proj2 (proj2 (proj2
             (backend_called_at_most_once Sample.h_created Sample.request
                Sample.tripped)))))
             Sample.node1 eq_refl eq_refl).
Defined.

(** The request without a log entry. *)
Lemma missing_entry_panics_on_sample :
  log_entry Sample.request_without_entry = None
  /\ outcome_of (CreateSchedule Sample.h_created Sample.request_without_entry)
       Sample.fresh
     = Panicked "invalid memory address or nil pointer dereference"
  /\ responses
       (events_of (CreateSchedule Sample.h_created Sample.request_without_entry)
          Sample.fresh)
     = [(500, {[ "status" := JInt 500; "code" := JInt 0;
                 "message" := JStr "unable to get request log entry from middleware" ]})].
Proof.
  split; [reflexivity |].
  destruct (missing_entry_panics Sample.h_created Sample.request_without_entry
              Sample.fresh eq_refl) as (Ho & Hr & _).
  split; [exact Ho | exact Hr].
Defined.

(** The consul agent is down while [node1]'s breaker is open: the failing
    signal fails, the answer is the same, and so are the log records. *)
Lemma health_results_on_sample :
  FailTTLHealth (consulAgent Sample.h_created) "service:schedule-1"
    "circuit breaker is open" = Some "consul agent unreachable"
  /\ FailTTLHealth (consulAgent Sample.h_created_up) "service:schedule-1"
       "circuit breaker is open" = None
  /\ responses (events_of (CreateSchedule Sample.h_created Sample.request) Sample.tripped)
     = responses
         (events_of (CreateSchedule Sample.h_created_up Sample.request) Sample.tripped)
  /\ log_records
       (events_of (CreateSchedule Sample.h_created Sample.request) Sample.tripped)
     = log_records
         (events_of (CreateSchedule Sample.h_created_up Sample.request) Sample.tripped).
Proof.
  split; [reflexivity |]. split; [reflexivity |].
  destruct (health_results_do_not_reach_the_request Sample.h_created
              (fun _ _ => Some "consul agent unreachable")
              (fun _ _ => Some "consul agent unreachable")
              (fun _ _ => None) (fun _ _ => None)
              Sample.request Sample.tripped) as (_ & _ & _ & Hr & Hl & _).
  split; [exact Hr | exact Hl].
Defined.

(** C8, as the claim has it, fails.  The consul agent is down while the
    breaker of [node1] is open: both health signals return an error, the one
    on the request path and the deferred one.  The handler writes one log
    record, the record of its 503 answer; no record carries the error, and
    firing the timer writes none. *)
Lemma health_failure_is_not_logged :
  health_failures
    (events_of (CreateSchedule Sample.h_created Sample.request) Sample.tripped)
    = ["consul agent unreachable"]
  /\ length (log_records
               (events_of (CreateSchedule Sample.h_created Sample.request)
                  Sample.tripped)) = 1%nat
  /\ logged "consul agent unreachable"
       (events_of (CreateSchedule Sample.h_created Sample.request) Sample.tripped)
     = false
  /\ health_failures
       (events_of (advance Sample.h_created 30000000100)
          (world_of (CreateSchedule Sample.h_created Sample.request) Sample.tripped))
     = ["consul agent unreachable"]
  /\ log_records
       (events_of (advance Sample.h_created 30000000100)
          (world_of (CreateSchedule Sample.h_created Sample.request) Sample.tripped))
     = [].
Proof. repeat split; vm_compute; reflexivity. Qed.

(** An expired token: 401 with the check's code and message. *)
Lemma stopped_at_a_gate_on_sample :
  authenticated Sample.h_unauthenticated Sample.request = false
  /\ responses
       (events_of (CreateSchedule Sample.h_unauthenticated Sample.request) Sample.fresh)
     = [(401, {[ "status" := JInt 401; "code" := JInt (-101);
                 "message" := JStr "token expired" ]})].
Proof.
  split; [reflexivity |].
  exact (proj1 (proj2 (stopped_at_a_gate Sample.h_unauthenticated Sample.request
                         Sample.fresh {| Data := ∅ |} eq_refl eq_refl))).
Defined.

(** Three backend timeouts in a row reach the error threshold of the sample
    configuration: the node's breaker is Open, and the next request is
    rejected without a backend call. *)
Lemma three_timeouts_trip_the_breaker :
  (breaker.st <$> (breakers Sample.after_three_timeouts !! "schedule-1"))
    = Some breaker.open
  /\ breaker_rejects Sample.after_three_timeouts Sample.node1 = true
  /\ (fst <$> responses
                (events_of (CreateSchedule Sample.h_created Sample.request)
                   Sample.after_three_timeouts))
     = [503]
  /\ backend_calls
       (events_of (CreateSchedule Sample.h_created Sample.request)
          Sample.after_three_timeouts)
     = [].
Proof. repeat split; vm_compute; reflexivity. Qed.

(** * What holds on every path *)

Section HandlerInvariants.

Context {imp : Imports}.

Lemma answer_keys_ne k :
  k ∉ answer_keys ->
  k <> "status" /\ k <> "code" /\ k <> "message" /\ k <> "request" /\ k <> "response".
Proof. unfold answer_keys. rewrite !not_elem_of_cons. tauto. Qed.

Lemma gin_H_holds status code msg : holds (gin_H status code msg) status code msg.
Proof. repeat split; reflexivity. Qed.

Lemma with_request_holds status code msg bytes :
  holds (with_request status code msg bytes) status code msg.
Proof. repeat split; reflexivity. Qed.

Lemma gin_H_confined status code msg : confined (gin_H status code msg).
Proof.
  intros k Hk. apply answer_keys_ne in Hk as (? & ? & ? & ? & ?).
  unfold gin_H. rewrite !lookup_insert_ne by done. by rewrite lookup_singleton_ne.
Qed.

Lemma with_request_confined status code msg bytes :
  confined (with_request status code msg bytes).
Proof.
  intros k Hk. apply answer_keys_ne in Hk as (? & ? & ? & ? & ?).
  unfold with_request. rewrite !lookup_insert_ne by done. by rewrite lookup_singleton_ne.
Qed.

Lemma CreateSchedule_stopped_answer h c w e :
  log_entry c = Some e ->
  authenticated h c && valid h c = false ->
  CreateSchedule h c w =
  (Returned tt, w,
   [EStartSpan (topSpan_of c) None;
    ESetTag (topSpan_of c) "X-Request-Id" (JStr (GetHeader c "X-Request-Id"))]
   ++ reply_trace e (topSpan_of c) InfoLevel
        (fst (fst (gate_answer h c))) (snd (fst (gate_answer h c)))
        (snd (gate_answer h c))
        (gin_H (fst (fst (gate_answer h c))) (snd (fst (gate_answer h c)))
           (snd (gate_answer h c)))
        (if authenticated h c
         then with_request (fst (fst (gate_answer h c))) (snd (fst (gate_answer h c)))
                (snd (gate_answer h c)) (json_Marshal_request (receivedReq_of h c))
         else gin_H (fst (fst (gate_answer h c))) (snd (fst (gate_answer h c)))
                (snd (gate_answer h c)))).
Proof.
  unfold gate_answer, authenticated, valid, receivedReq_of. intros He Hg.
  unfold CreateSchedule, authenticate_and_serve. rewrite He.
  rewrite bool_decide_eq_true_2 by (by eexists). cbn [negb].
  destruct (checkIfAuthenticated h c) as [[[ok claims] code] msg].
  destruct (checkIfValidRequest h c) as [rq [[okv codev] msgv]].
  cbn [fst snd] in *.
  destruct ok; cbn [negb]; [destruct okv; [discriminate |] |]; reflexivity.
Qed.


Lemma reply_Some_trace e topSpan lvl status code msg body fields w :
  reply (Some e) topSpan lvl status code msg body fields w =
  (Returned tt, w, reply_trace e topSpan lvl status code msg body fields).
Proof. apply reply_Some. Qed.

Lemma insert_confined k v m : k ∈ answer_keys -> confined m -> confined (<[k := v]> m).
Proof.
  intros Hk Hm k' Hk'. rewrite lookup_insert_ne; [by apply Hm |]. by intros ->.
Qed.

(** What [respond] does with the pair the closure left behind, when the
    request has its log entry. *)
Lemma respond_answer h e topSpan bytes node a w :
  exists mid lvl status code msg body fields w',
    respond h (Some e) topSpan bytes node (as_pair a) w =
      (Returned tt, w', mid ++ reply_trace e topSpan lvl status code msg body fields)
    /\ lvl = level_of status
    /\ holds body status code msg
    /\ holds fields status code msg
    /\ confined fields
    /\ ((mid = [] /\ w' = w)
        \/ (a = inr ErrBreakerOpen
            /\ mid = [EFailTTLHealth (checkID_of node) ErrBreakerOpen_Error
                        (FailTTLHealth (consulAgent h) (checkID_of node)
                           ErrBreakerOpen_Error);
                      EAfterFunc (Timeout (BreakerCfg h))
                        (CallPassTTLHealth (checkID_of node) "close circuit breaker")]
            /\ w' = {| now := now w; breakers := breakers w;
                       timers := timers w ++ [recovery_timer h w node] |})).
Proof.
  destruct a as [resp|[|code detail|text]]; cbn [as_pair].
  - destruct (Z.eq_dec (Status resp) http.StatusCreated) as [Hs|Hs].
    + rewrite (respond_created _ _ _ _ _ _ _ Hs), reply_Some_trace.
      eexists [], _, _, _, _, _, _, _. split; [reflexivity |].
      split; [reflexivity |]. split; [by repeat split |].
      split; [by repeat split |].
      split; [| by left].
      apply insert_confined; [set_solver | apply with_request_confined].
    + unfold respond.
      destruct (Z.eqb_spec (Status resp) http.StatusCreated) as [|_]; [contradiction |].
      fold (is_failure (Status resp)).
      destruct (is_failure (Status resp)) eqn:Hf; rewrite reply_Some_trace;
        (eexists [], _, _, _, _, _, _, _; split; [reflexivity |];
         split; [by unfold level_of; rewrite Hf |];
         split; [apply gin_H_holds |]; split; [apply with_request_holds |];
         split; [apply with_request_confined | by left]).
  - rewrite respond_breaker_open.
    eexists [_; _], _, _, _, _, _, _, _. split; [reflexivity |].
    split; [reflexivity |]. split; [apply gin_H_holds |].
    split; [apply with_request_holds |]. split; [apply with_request_confined |].
    right. done.
  - destruct (Z.eq_dec code http.StatusRequestTimeout) as [->|Hc].
    + rewrite respond_timeout, reply_Some_trace.
      eexists [], _, _, _, _, _, _, _. split; [reflexivity |].
      split; [reflexivity |]. split; [apply gin_H_holds |].
      split; [apply with_request_holds |]. split; [apply with_request_confined | by left].
    + rewrite (respond_micro_error _ _ _ _ _ _ _ _ _ Hc), reply_Some_trace.
      eexists [], _, _, _, _, _, _, _. split; [reflexivity |].
      split; [reflexivity |]. split; [apply gin_H_holds |].
      split; [apply with_request_holds |]. split; [apply with_request_confined | by left].
  - rewrite respond_other_error, reply_Some_trace.
    eexists [], _, _, _, _, _, _, _. split; [reflexivity |].
    split; [reflexivity |]. split; [apply gin_H_holds |].
    split; [apply with_request_holds |]. split; [apply with_request_confined | by left].
Qed.


Ltac prefix_facts :=
  unfold before_the_answer; repeat split; try reflexivity;
  cbn; rewrite ?app_nil_r; auto.

Lemma up_to_answer_before h c w node :
  before_the_answer h c w (after_call h c w node) (up_to_answer h c w node).
Proof.
  unfold before_the_answer, up_to_answer.
  destruct (breakers w !! Id node); repeat split; try reflexivity;
    cbn; by rewrite ?app_nil_r; auto.
Qed.

(** Every request that has its log entry runs up to one answer: the handler
    returns, and its trace is a prefix without an answer, followed by the
    block that answers, logs and closes the request's span. *)
Lemma CreateSchedule_answered h c w e :
  log_entry c = Some e ->
  exists pre lvl status code msg body fields w',
    CreateSchedule h c w =
      (Returned tt, w',
       pre ++ reply_trace e (topSpan_of c) lvl status code msg body fields)
    /\ before_the_answer h c w w' pre
    /\ lvl = level_of status
    /\ holds body status code msg
    /\ holds fields status code msg
    /\ confined fields.
Proof.
  intros He.
  destruct (authenticated h c && valid h c) eqn:Hg.
  2:{ rewrite (CreateSchedule_stopped_answer _ _ _ _ He Hg).
      eexists [_; _], _, _, _, _, _, _, _. split; [reflexivity |].
      split; [prefix_facts |].
      unfold gate_answer.
      destruct (authenticated h c); cbn [fst snd];
        (split; [reflexivity |]; split; [apply gin_H_holds |]);
        [split; [apply with_request_holds | apply with_request_confined]
        | split; [apply gin_H_holds | apply gin_H_confined]]. }
  apply andb_true_iff in Hg as [Ha Hv].
  destruct (resolved h) as [node|err] eqn:Hn.
  2:{ rewrite (CreateSchedule_serves _ _ _ _ He Ha Hv).
      rewrite (resolve_and_dispatch_error _ _ _ _ _ _ _ _ _ Hn).
      destruct err; rewrite reply_Some_trace;
        (eexists [_; _; _; _; _; _], _, _, _, _, _, _, _; split; [reflexivity |];
         split; [prefix_facts |];
         split; [reflexivity |]; split; [apply gin_H_holds |];
         split; [apply with_request_holds | apply with_request_confined]). }
  destruct (breaker_rejects w node) eqn:Hr.
  - rewrite (CreateSchedule_rejected _ _ _ _ _ He Ha Hv Hn Hr), respond_breaker_open.
    eexists (up_to_node c ++ [EBreakerRun (Id node) false; _; _]),
      _, _, _, _, _, _, _.
    split; [reflexivity |].
    split; [prefix_facts |].
    split; [reflexivity |]. split; [apply gin_H_holds |].
    split; [apply with_request_holds | apply with_request_confined].
  - rewrite (CreateSchedule_passed _ _ _ _ _ He Ha Hv Hn Hr).
    destruct (respond_answer h e (topSpan_of c)
                (json_Marshal_request (receivedReq_of h c)) node
                (backend_answer h c node) (after_call h c w node))
      as (mid & lvl & status & code & msg & body & fields & w' & -> & Hl & Hb & Hf & Hc & Hm).
    exists (up_to_answer h c w node ++ mid), lvl, status, code, msg, body, fields, w'.
    split; [unfold prepend; cbn [fst snd]; by rewrite app_assoc |].
    split; [| done].
    destruct Hm as [[-> ->] | (_ & -> & ->)].
    + rewrite app_nil_r. apply up_to_answer_before.
    + unfold up_to_answer, after_call.
      destruct (breakers w !! Id node); prefix_facts.
Qed.








Lemma fail_signals_app t1 t2 : fail_signals (t1 ++ t2) = fail_signals t1 ++ fail_signals t2.
Proof. apply omap_app. Qed.

Lemma pass_signals_app t1 t2 : pass_signals (t1 ++ t2) = pass_signals t1 ++ pass_signals t2.
Proof. apply omap_app. Qed.

(** X6.  On every path the handler leaves the clock alone, issues no
    passing signal itself and at most one failing signal, and leaves the
    timers that were pending, in their order, followed by one recovery timer
    per failing signal it issued, due one cool-down later and aimed at the
    same check id: it never cancels and never fires a timer. *)
Theorem timers_are_only_added h c w :
  now (world_of (CreateSchedule h c) w) = now w
  /\ pass_signals (events_of (CreateSchedule h c) w) = []
  /\ (length (fail_signals (events_of (CreateSchedule h c) w)) <= 1)%nat
  /\ timers (world_of (CreateSchedule h c) w) =
       timers w
       ++ map (recovery_for h w) (fail_signals (events_of (CreateSchedule h c) w)).
Proof.
  unfold events_of, world_of.
  destruct (log_entry c) as [e|] eqn:He.
  - destruct (CreateSchedule_answered h c w e He)
      as (pre & lvl & status & code & msg & body & fields & w' & -> & B & _).
    destruct B as (_ & _ & B3 & _ & B5 & B6 & B7 & B8). cbn [fst snd].
    rewrite pass_signals_app, fail_signals_app, B3.
    change (fail_signals (reply_trace e (topSpan_of c) lvl status code msg body fields))
      with (@nil (string * string)).
    rewrite !app_nil_r.
    split; [exact B5 |]. split; [reflexivity |]. split; [exact B8 |].
    by rewrite B6, B7.
  - rewrite (CreateSchedule_no_entry _ _ _ He). cbn [fst snd].
    repeat split; try reflexivity; cbn; [lia | by rewrite app_nil_r].
Qed.


Lemma failed_flag a :
  bool_decide (is_Some (snd (as_pair a))) =
  match a with inl _ => false | inr _ => true end.
Proof.
  destruct a; cbn [as_pair snd].
  - apply bool_decide_eq_false_2. by intros [? ?].
  - apply bool_decide_eq_true_2. by eexists.
Qed.

(** [h.breakers] after a request, on every path. *)
Lemma breakers_CreateSchedule h c w :
  breakers (world_of (CreateSchedule h c) w) =
  if passes_gates h c then
    match resolved h with
    | inl node =>
        if breaker_rejects w node then breakers w
        else <[Id node := recorded h c w node]> (breakers w)
    | inr _ => breakers w
    end
  else breakers w.
Proof.
  unfold world_of, passes_gates.
  destruct (log_entry c) as [e|] eqn:He.
  2:{ rewrite bool_decide_eq_false_2 by (by intros [? ?]).
      by rewrite (CreateSchedule_no_entry _ _ _ He). }
  rewrite bool_decide_eq_true_2 by (by eexists). rewrite <- andb_assoc. cbn [andb].
  destruct (authenticated h c && valid h c) eqn:Hg.
  2:{ by rewrite (CreateSchedule_stopped_answer _ _ _ _ He Hg). }
  apply andb_true_iff in Hg as [Ha Hv].
  destruct (resolved h) as [node|err] eqn:Hn.
  2:{ destruct (CreateSchedule_unresolved h c w e err He Ha Hv Hn)
        as (? & ? & ? & -> & _). reflexivity. }
  destruct (breaker_rejects w node) eqn:Hr.
  - by rewrite (CreateSchedule_rejected _ _ _ _ _ He Ha Hv Hn Hr), respond_breaker_open.
  - rewrite (CreateSchedule_passed _ _ _ _ _ He Ha Hv Hn Hr).
    destruct (respond_answer h e (topSpan_of c)
                (json_Marshal_request (receivedReq_of h c)) node
                (backend_answer h c node) (after_call h c w node))
      as (mid & lvl & status & code & msg & body & fields & w' & -> & _ & _ & _ & _ & Hm).
    unfold recorded. rewrite <- failed_flag.
    by destruct Hm as [[_ ->] | (_ & _ & ->)].
Qed.

(** X7.  A request never removes a breaker from [h.breakers], never touches
    the breaker of a node other than the one the consul agent resolved, and
    once it passed the gates and a node was resolved, that node has a
    breaker. *)
Theorem other_breakers_are_untouched h c w :
  (forall id, is_Some (breakers w !! id) ->
     is_Some (breakers (world_of (CreateSchedule h c) w) !! id))
  /\ (forall id, (forall node, resolved h = inl node -> id <> Id node) ->
        breakers (world_of (CreateSchedule h c) w) !! id = breakers w !! id)
  /\ (forall node, passes_gates h c = true -> resolved h = inl node ->
        is_Some (breakers (world_of (CreateSchedule h c) w) !! Id node)).
Proof.
  rewrite breakers_CreateSchedule.
  split; [| split].
  - intros id Hid. destruct (passes_gates h c); [| done].
    destruct (resolved h) as [node|]; [| done].
    destruct (breaker_rejects w node); [done |].
    apply lookup_insert_is_Some'. by right.
  - intros id Hid. destruct (passes_gates h c); [| done].
    destruct (resolved h) as [node|]; [| done].
    destruct (breaker_rejects w node); [done |].
    apply lookup_insert_ne. intros Heq. by eapply Hid.
  - intros node -> ->. unfold breaker_rejects.
    destruct (breakers w !! Id node) as [b|] eqn:Hb.
    + destruct (breaker.rejects (now w) b); [by rewrite Hb |].
      rewrite lookup_insert_eq. by eexists.
    + rewrite lookup_insert_eq. by eexists.
Qed.

Lemma not_open_passes t b :
  breaker.st b <> breaker.open -> breaker.rejects t b = false.
Proof.
  unfold breaker.rejects, breaker.current. intros Hs.
  destruct (breaker.st b) eqn:E; [by rewrite E | done | by rewrite E].
Qed.

Lemma record_success_passes t t' b :
  breaker.rejects t b = false ->
  breaker.rejects t' (breaker.record t false (breaker.current t b)) = false.
Proof.
  unfold breaker.rejects. intros Hr. apply not_open_passes.
  unfold breaker.record.
  destruct (breaker.st (breaker.current t b)) eqn:Hs; [| discriminate |].
  - cbn [breaker.with_counts breaker.st]. by rewrite Hs.
  - destruct (_ <=? _); cbn [breaker.with_counts breaker.with_state breaker.st];
      [done | by rewrite Hs].
Qed.

(** X8.  What the breaker gets to see of a request.  A rejected request
    changes no breaker.  A request that was let through is recorded by the
    node's breaker as a failure exactly when the backend call returned an
    error; a response is recorded as a success whatever status it declares,
    so that afterwards the breaker lets calls through at any instant: a
    backend that declares 500 or 503 in its response never opens it. *)
Theorem breaker_sees_transport_errors_only h c w node :
  passes_gates h c = true ->
  resolved h = inl node ->
  (breaker_rejects w node = true ->
     breakers (world_of (CreateSchedule h c) w) = breakers w)
  /\ (breaker_rejects w node = false ->
        breakers (world_of (CreateSchedule h c) w) !! Id node =
          Some (breaker.record (now w)
                  (match backend_answer h c node with inl _ => false | inr _ => true end)
                  (breaker.current (now w) (breaker_of h w node)))
        /\ forall resp, backend_answer h c node = inl resp ->
             forall b t,
               breakers (world_of (CreateSchedule h c) w) !! Id node = Some b ->
               breaker.rejects t b = false).
Proof.
  intros Hg Hn. rewrite breakers_CreateSchedule, Hg, Hn.
  split; [by intros -> |]. intros Hr. rewrite Hr, lookup_insert_eq.
  split; [reflexivity |].
  intros resp Hb b t Heq. injection Heq as <-. unfold recorded. rewrite Hb.
  apply record_success_passes.
  unfold breaker_rejects, breaker_of in *.
  destruct (breakers w !! Id node); [done | reflexivity].
Qed.


(** X9.  The handler does not check that the resolved node has a "CheckID"
    in its metadata.  When it has none and the breaker rejects, the failing
    signal is issued for the empty check id, the recovery timer aims at the
    empty check id too, and the request is answered 503 as usual. *)
Theorem missing_check_id_is_signalled_as_empty h c w node :
  passes_gates h c = true ->
  resolved h = inl node ->
  breaker_rejects w node = true ->
  Metadata node !! "CheckID" = None ->
  fail_signals (events_of (CreateSchedule h c) w) = [("", ErrBreakerOpen_Error)]
  /\ timers (world_of (CreateSchedule h c) w) =
       timers w
       ++ [{| due := now w + Timeout (BreakerCfg h);
              run := CallPassTTLHealth "" "close circuit breaker" |}]
  /\ (fst <$> responses (events_of (CreateSchedule h c) w)) = [503].
Proof.
  intros Hg Hn Hr Hm. destruct (passes_gates_true _ _ Hg) as (e & He & Ha & Hv).
  unfold events_of, world_of.
  rewrite (CreateSchedule_rejected _ _ _ _ _ He Ha Hv Hn Hr), respond_breaker_open.
  unfold recovery_timer, checkID_of, index. rewrite Hm. cbn [default].
  repeat split; reflexivity.
Qed.

(** X10.  The handler does not require the X-Request-Id header.  When the
    request has none, the backend is called with the empty request id, and
    the request's span is tagged with the empty id. *)
Theorem missing_request_id_is_sent_as_empty h c w node :
  passes_gates h c = true ->
  resolved h = inl node ->
  breaker_rejects w node = false ->
  Header c !! "X-Request-Id" = None ->
  backend_calls (events_of (CreateSchedule h c) w) =
    [(Address node, "",
      set_Uuid (GenerateGRPCRequest (receivedReq_of h c)) (UUID (claims_of h c)))]
  /\ ESetTag (topSpan_of c) "X-Request-Id" (JStr "")
       ∈ events_of (CreateSchedule h c) w.
Proof.
  intros Hg Hn Hr Hh.
  assert (GetHeader c "X-Request-Id" = "") as Hid
    by (unfold GetHeader, index; by rewrite Hh).
  split.
  - rewrite backend_calls_CreateSchedule, Hg, Hn, Hr. unfold the_call. by rewrite Hid.
  - destruct (passes_gates_true _ _ Hg) as (e & He & Ha & Hv).
    unfold events_of.
    rewrite (CreateSchedule_passed _ _ _ _ _ He Ha Hv Hn Hr).
    rewrite events_prepend. apply elem_of_app. left.
    unfold up_to_answer, up_to_node. rewrite Hid.
    apply elem_of_cons. right. apply elem_of_cons. by left.
Qed.




Lemma rejected_world h c w node :
  passes_gates h c = true ->
  resolved h = inl node ->
  breaker_rejects w node = true ->
  world_of (CreateSchedule h c) w =
  {| now := now w; breakers := breakers w;
     timers := timers w ++ [recovery_timer h w node] |}.
Proof.
  intros Hg Hn Hr. destruct (passes_gates_true _ _ Hg) as (e & He & Ha & Hv).
  unfold world_of.
  by rewrite (CreateSchedule_rejected _ _ _ _ _ He Ha Hv Hn Hr), respond_breaker_open.
Qed.

(** X12.  Recovery timers run independently.  A request is rejected at one
    instant and another one at a later instant [t2] within the first
    cool-down.  When the first cool-down has elapsed, the first timer fires
    the passing signal for the node, although the node was signalled failing
    again at [t2] and the recovery timer of that second rejection is still
    pending. *)
Theorem recovery_timers_are_not_cancelled h c w node t2 :
  passes_gates h c = true ->
  resolved h = inl node ->
  timers w = [] ->
  breaker_rejects w node = true ->
  now w < t2 < now w + Timeout (BreakerCfg h) ->
  breaker_rejects (world_of (advance h t2) (world_of (CreateSchedule h c) w)) node
    = true ->
  pass_signals
    (events_of (advance h (now w + Timeout (BreakerCfg h)))
       (world_of (CreateSchedule h c)
          (world_of (advance h t2) (world_of (CreateSchedule h c) w))))
    = [(checkID_of node, "close circuit breaker")]
  /\ timers
       (world_of (advance h (now w + Timeout (BreakerCfg h)))
          (world_of (CreateSchedule h c)
             (world_of (advance h t2) (world_of (CreateSchedule h c) w))))
     = [{| due := t2 + Timeout (BreakerCfg h);
           run := CallPassTTLHealth (checkID_of node) "close circuit breaker" |}].
Proof.
  intros Hg Hn Ht Hr [Hlo Hhi] Hr2.
  rewrite (rejected_world _ _ _ _ Hg Hn Hr) in *. rewrite Ht in *. cbn [app] in *.
  assert (world_of (advance h t2)
            {| now := now w; breakers := breakers w;
               timers := [recovery_timer h w node] |} =
          {| now := t2; breakers := breakers w;
             timers := [recovery_timer h w node] |}) as Hw2.
  { unfold world_of. rewrite advance_run. cbn [fst snd now timers breakers List.filter].
    rewrite (Z.max_r (now w) t2) by lia.
    assert (is_due t2 (recovery_timer h w node) = false) as ->
      by (apply Z.leb_gt; cbn [due recovery_timer]; lia).
    reflexivity. }
  rewrite Hw2 in *.
  rewrite (rejected_world _ _ _ _ Hg Hn Hr2).
  unfold events_of, world_of. rewrite advance_run.
  cbn [fst snd now timers breakers app List.filter].
  rewrite (Z.max_r t2 (now w + Timeout (BreakerCfg h))) by lia.
  assert (is_due (now w + Timeout (BreakerCfg h)) (recovery_timer h w node) = true) as ->
    by (apply Z.leb_le; cbn [due recovery_timer]; lia).
  assert (is_due (now w + Timeout (BreakerCfg h))
            (recovery_timer h {| now := t2; breakers := breakers w;
                                 timers := [recovery_timer h w node] |} node) = false) as ->
    by (apply Z.leb_gt; cbn [due recovery_timer now]; lia).
  cbn [negb]. split; reflexivity.
Qed.

End HandlerInvariants.

(** * The goroutines of lines 93-100, continued *)

Section RegistryOrder.

Import Registry.

Lemma init_orderly ids : registry_orderly (init ids).
Proof. split; cbn [init writing mutex fatal]; discriminate. Qed.

Lemma step_orderly i s s' :
  consistent s -> registry_orderly s -> step i s = Some s' -> registry_orderly s'.
Proof.
  intros C [Hw Hm Hf] Hs. unfold step in Hs.
  destruct (fatal s) eqn:Hfatal; [discriminate |].
  destruct (goroutines s !! i) as [g|] eqn:Hi; [| discriminate].
  assert (forall p, (forall b, at_ g <> InAssign b) ->
            writing s = true ->
            exists j gj b, moved s i g p !! j = Some gj /\ at_ gj = InAssign b) as Hkeep.
  { intros p Hp Hwr. destruct (Hw Hwr) as (j & gj & b & Hj & Hb).
    exists j, gj, b. split; [| done].
    apply lookup_moved_other; [| done]. intros ->.
    rewrite Hi in Hj. injection Hj as <-. by eapply Hp. }
  assert (in_cs (at_ g) = true -> writing s = true ->
          exists b, at_ g = InAssign b) as Hsame.
  { intros Hc Hwr. destruct (Hw Hwr) as (j & gj & b & Hj & Hb).
    assert (j = i) as -> by (eapply (cs_unique s C); [done | done | by rewrite Hb | done]).
    rewrite Hi in Hj. injection Hj as <-. eauto. }
  destruct (at_ g) eqn:Hpc.
  - destruct (mutex s); [discriminate |]. injection Hs as <-.
    split; cbn [writing mutex fatal goroutines]; [| | discriminate].
    + by apply Hkeep.
    + intros _. eexists i, _. split; [by apply lookup_moved_self | done].
  - destruct (writing s) eqn:Hwr.
    + destruct Hsame as [b Hb]; [done | done | discriminate].
    + injection Hs as <-.
      split; cbn [writing mutex fatal goroutines]; [discriminate | | discriminate].
      intros _. eexists i, _. split; [by apply lookup_moved_self |].
      cbn [at_]. by destruct (h_breakers s !! node_id g).
  - destruct (writing s) eqn:Hwr.
    + destruct Hsame as [b Hb]; [done | done | discriminate].
    + injection Hs as <-.
      split; cbn [writing mutex fatal goroutines]; [| | discriminate].
      * intros _. eexists i, _, _. split; [by apply lookup_moved_self | done].
      * intros _. eexists i, _. split; [by apply lookup_moved_self | done].
  - injection Hs as <-.
    split; cbn [writing mutex fatal goroutines]; [discriminate | | discriminate].
    intros _. eexists i, _. split; [by apply lookup_moved_self | done].
  - injection Hs as <-.
    split; cbn [writing mutex fatal goroutines]; [| discriminate | discriminate].
    by apply Hkeep.
  - destruct (writing s) eqn:Hwr; injection Hs as <-.
    + split; cbn [die writing mutex fatal goroutines];
        [intros _; by apply Hw | exact Hm |].
      intros why [= <-]. split; [done |]. split; [exact Hwr |]. eauto.
    + split; cbn [writing mutex fatal goroutines]; [discriminate | | discriminate].
      intros Hmx. destruct (Hm Hmx) as (j & gj & Hj & Hc).
      exists j, gj. split; [| done].
      apply lookup_moved_other; [| done]. intros ->.
      rewrite Hi in Hj. injection Hj as <-. by rewrite Hpc in Hc.
  - discriminate.
Qed.

Lemma run_orderly sched s :
  consistent s -> registry_orderly s -> registry_orderly (run sched s).
Proof.
  revert s. induction sched as [|i sched IH]; intros s C O; [done |].
  cbn [run]. destruct (step i s) as [s'|] eqn:Hs; cbn [default].
  - apply IH; [by eapply step_consistent | by eapply step_orderly].
  - by apply IH.
Qed.

(** X13.  Whatever the schedule, the runtime ends the process only with
    "concurrent map read and map write", and only when a goroutine stands at
    the read of line 100 while another one is inside the assignment of line
    95: the accesses of lines 94 and 95, under the mutex, never meet a write,
    and two writes never meet. *)
Theorem registry_aborts_only_at_the_read ids sched why :
  fatal (run sched (init ids)) = Some why ->
  why = "concurrent map read and map write"
  /\ exists i g j g' b,
       goroutines (run sched (init ids)) !! i = Some g /\ at_ g = AtRead
       /\ goroutines (run sched (init ids)) !! j = Some g' /\ at_ g' = InAssign b.
Proof.
  intros Hf.
  pose proof (run_orderly sched _ (init_consistent ids) (init_orderly ids)) as O.
  destruct (abort_is_a_read _ O why Hf) as (-> & Hw & i & g & Hi & Hg).
  destruct (writer_exists _ O Hw) as (j & g' & b & Hj & Hb).
  split; [done |]. by exists i, g, j, g', b.
Qed.

(** X14.  The mutex never blocks for good: in every reachable state in
    which the process has not been ended and some goroutine has not reached
    [Run] yet, some goroutine can execute its next statement. *)
Theorem registry_never_deadlocks ids sched i g :
  fatal (run sched (init ids)) = None ->
  goroutines (run sched (init ids)) !! i = Some g ->
  (forall ob, at_ g <> Running ob) ->
  exists j, is_Some (step j (run sched (init ids))).
Proof.
  pose proof (run_consistent sched _ (init_consistent ids)) as C.
  pose proof (run_orderly sched _ (init_consistent ids) (init_orderly ids)) as O.
  revert C O. generalize (run sched (init ids)) as s. intros s C O Hf Hi Hg.
  assert (forall j gj, goroutines s !! j = Some gj -> in_cs (at_ gj) = true ->
            is_Some (step j s)) as Hcs.
  { intros j gj Hj Hc. unfold step. rewrite Hf, Hj.
    destruct (at_ gj); try discriminate; try destruct (writing s); by eexists. }
  destruct (mutex s) eqn:Hm.
  - destruct (holder_exists _ O Hm) as (j & gj & Hj & Hc). exists j. by eapply Hcs.
  - exists i. destruct (in_cs (at_ g)) eqn:Hc; [by eapply Hcs |].
    unfold step. rewrite Hf, Hi.
    destruct (at_ g) eqn:Hpc; try discriminate.
    + rewrite Hm. by eexists.
    + destruct (writing s); by eexists.
    + by destruct (Hg b).
Qed.

End RegistryOrder.

(** * The further properties on the sample inputs *)



(** A backend that declares 503 in its response leaves the breaker of
    "schedule-1" letting calls through. *)
Lemma breaker_sees_transport_errors_only_on_sample :
  passes_gates Sample.h_unavailable Sample.request = true
  /\ resolved Sample.h_unavailable = inl Sample.node1
  /\ breaker_rejects Sample.fresh Sample.node1 = false
  /\ backend_answer Sample.h_unavailable Sample.request Sample.node1
       = inl Sample.unavailable
  /\ forall b t,
       breakers (world_of (CreateSchedule Sample.h_unavailable Sample.request)
                   Sample.fresh) !! "schedule-1" = Some b ->
       breaker.rejects t b = false.
Proof.
  split; [reflexivity |]. split; [reflexivity |]. split; [reflexivity |].
  split; [reflexivity |].
  exact (proj2 (proj2 (breaker_sees_transport_errors_only Sample.h_unavailable
                         Sample.request Sample.fresh Sample.node1 eq_refl eq_refl)
                  eq_refl)
           Sample.unavailable eq_refl).
Defined.

(** [node2] has no check id: the rejection signals the empty check id. *)
Lemma missing_check_id_is_signalled_as_empty_on_sample :
  passes_gates Sample.h_unchecked Sample.request = true
  /\ resolved Sample.h_unchecked = inl Sample.node2
  /\ breaker_rejects Sample.tripped2 Sample.node2 = true
  /\ Metadata Sample.node2 !! "CheckID" = None
  /\ fail_signals
       (events_of (CreateSchedule Sample.h_unchecked Sample.request) Sample.tripped2)
       = [("", "circuit breaker is open")]
  /\ timers (world_of (CreateSchedule Sample.h_unchecked Sample.request) Sample.tripped2)
       = [{| due := 30000000100;
             run := CallPassTTLHealth "" "close circuit breaker" |}]
  /\ (fst <$> responses
                (events_of (CreateSchedule Sample.h_unchecked Sample.request)
                   Sample.tripped2))
     = [503].
Proof.
  split; [reflexivity |]. split; [reflexivity |]. split; [reflexivity |].
  split; [reflexivity |].
  exact (missing_check_id_is_signalled_as_empty Sample.h_unchecked Sample.request
           Sample.tripped2 Sample.node2 eq_refl eq_refl eq_refl eq_refl).
Defined.

(** A request without the header reaches the backend with the empty id. *)
Lemma missing_request_id_is_sent_as_empty_on_sample :
  passes_gates Sample.h_created Sample.request_without_id = true
  /\ resolved Sample.h_created = inl Sample.node1
  /\ breaker_rejects Sample.fresh Sample.node1 = false
  /\ Header Sample.request_without_id !! "X-Request-Id" = None
  /\ backend_calls
       (events_of (CreateSchedule Sample.h_created Sample.request_without_id)
          Sample.fresh)
     = [("10.0.0.7:8080", "", ("{}", "student-1"))]
  /\ ESetTag "POST /v1/schedules" "X-Request-Id" (JStr "")
       ∈ events_of (CreateSchedule Sample.h_created Sample.request_without_id)
           Sample.fresh.
Proof.
  split; [reflexivity |]. split; [reflexivity |]. split; [reflexivity |].
  split; [reflexivity |].
  exact (missing_request_id_is_sent_as_empty Sample.h_created
           Sample.request_without_id Sample.fresh Sample.node1
           eq_refl eq_refl eq_refl eq_refl).
Defined.



(** Rejections at the instants 100 and 200: at 30000000100 the first timer
    signals "service:schedule-1" passing, the second one is pending. *)
Lemma recovery_timers_are_not_cancelled_on_sample :
  passes_gates Sample.h_created Sample.request = true
  /\ resolved Sample.h_created = inl Sample.node1
  /\ timers Sample.tripped = []
  /\ breaker_rejects Sample.tripped Sample.node1 = true
  /\ breaker_rejects
       (world_of (advance Sample.h_created 200)
          (world_of (CreateSchedule Sample.h_created Sample.request) Sample.tripped))
       Sample.node1 = true
  /\ pass_signals
       (events_of (advance Sample.h_created 30000000100)
          (world_of (CreateSchedule Sample.h_created Sample.request)
             (world_of (advance Sample.h_created 200)
                (world_of (CreateSchedule Sample.h_created Sample.request)
                   Sample.tripped))))
     = [("service:schedule-1", "close circuit breaker")]
  /\ timers
       (world_of (advance Sample.h_created 30000000100)
          (world_of (CreateSchedule Sample.h_created Sample.request)
             (world_of (advance Sample.h_created 200)
                (world_of (CreateSchedule Sample.h_created Sample.request)
                   Sample.tripped))))
     = [{| due := 30000000200;
           run := CallPassTTLHealth "service:schedule-1" "close circuit breaker" |}].
Proof.
  split; [reflexivity |]. split; [reflexivity |]. split; [reflexivity |].
  split; [reflexivity |]. split; [vm_compute; reflexivity |].
  apply (recovery_timers_are_not_cancelled Sample.h_created Sample.request
           Sample.tripped Sample.node1 200);
    [reflexivity | reflexivity | reflexivity | reflexivity
    | cbn; lia | vm_compute; reflexivity].
Defined.

(** The schedule that ends the process: request 0 is at the read of line
    100 while request 1 is inside its assignment. *)
Lemma registry_aborts_only_at_the_read_on_sample :
  Registry.fatal
    (Registry.run [0; 0; 0; 0; 0; 1; 1; 1; 0]%nat
       (Registry.init ["schedule-1"; "schedule-2"]))
    = Some "concurrent map read and map write"
  /\ exists i g j g' b,
       Registry.goroutines
         (Registry.run [0; 0; 0; 0; 0; 1; 1; 1; 0]%nat
            (Registry.init ["schedule-1"; "schedule-2"])) !! i = Some g
       /\ Registry.at_ g = Registry.AtRead
       /\ Registry.goroutines
            (Registry.run [0; 0; 0; 0; 0; 1; 1; 1; 0]%nat
               (Registry.init ["schedule-1"; "schedule-2"])) !! j = Some g'
       /\ Registry.at_ g' = Registry.InAssign b.
Proof.
  split; [vm_compute; reflexivity |].
  apply (registry_aborts_only_at_the_read ["schedule-1"; "schedule-2"]
           [0; 0; 0; 0; 0; 1; 1; 1; 0]%nat "concurrent map read and map write").
  vm_compute; reflexivity.
Defined.

(** Request 0 holds the mutex and request 1 waits for it: request 1 cannot
    step, and some request can. *)
Lemma registry_never_deadlocks_on_sample :
  Registry.fatal (Registry.run [0]%nat (Registry.init ["schedule-1"; "schedule-2"]))
    = None
  /\ Registry.goroutines
       (Registry.run [0]%nat (Registry.init ["schedule-1"; "schedule-2"])) !! 1%nat
     = Some {| Registry.node_id := "schedule-2"; Registry.at_ := Registry.AtLock |}
  /\ Registry.step 1 (Registry.run [0]%nat (Registry.init ["schedule-1"; "schedule-2"]))
     = None
  /\ exists j,
       is_Some (Registry.step j
                  (Registry.run [0]%nat (Registry.init ["schedule-1"; "schedule-2"]))).
Proof.
  split; [reflexivity |]. split; [reflexivity |]. split; [reflexivity |].
  apply (registry_never_deadlocks ["schedule-1"; "schedule-2"] [0]%nat 1%nat
           {| Registry.node_id := "schedule-2"; Registry.at_ := Registry.AtLock |});
    [reflexivity | reflexivity | intros ob; discriminate].
Defined.

(** A request resolved to "schedule-1" leaves the open breaker of
    "schedule-2" as it was, and stores a breaker for "schedule-1". *)
Lemma other_breakers_are_untouched_on_sample :
  breakers (world_of (CreateSchedule Sample.h_created Sample.request) Sample.tripped2)
    !! "schedule-2" = breakers Sample.tripped2 !! "schedule-2"
  /\ is_Some
       (breakers (world_of (CreateSchedule Sample.h_created Sample.request)
                    Sample.tripped2) !! "schedule-1").
Proof.
  destruct (other_breakers_are_untouched Sample.h_created Sample.request
              Sample.tripped2) as (_ & Hother & Hown).
  split.
  - apply Hother. intros node Hn. injection Hn as <-. discriminate.
  - exact (Hown Sample.node1 eq_refl eq_refl).
Defined.
